(** * OAuth gateway (src/server/server.js): request handlers and their properties

    The Express handlers of [src/server/server.js] are embedded as pure
    functions over an explicit request context.  JavaScript values are a small
    inductive type, strings are sequences of UTF-16 code units, and the calls
    a handler makes to the Salesforce client / HTTP client are answered by an
    [Upstream] record and recorded in the context. *)

From Stdlib Require Import List String Ascii NArith ZArith Bool Lia.
Import ListNotations.

Set Warnings "-register-all".

(** ** JavaScript values *)

Module JS.

(** A JavaScript string: its UTF-16 code units. *)
Definition jsstring := list N.

(** An ASCII literal of the source as a JavaScript string. *)
Definition js (s : string) : jsstring :=
  map N_of_ascii (list_ascii_of_string s).

Fixpoint str_eqb (a b : jsstring) : bool :=
  match a, b with
  | [], [] => true
  | x :: a', y :: b' => N.eqb x y && str_eqb a' b'
  | _, _ => false
  end.

(** Values exchanged with the client libraries (credentials, errors,
    payloads).  [JNum] carries integer-valued numbers only; the program never
    computes with numbers, it only tests values for truthiness. *)
Inductive jsval :=
| JUndefined
| JNull
| JBool (b : bool)
| JNum (n : Z)
| JStr (s : jsstring)
| JArr (items : list jsval)
| JObj (fields : list (jsstring * jsval)).

(** [typeof v === 'undefined'] *)
Definition is_undefined (v : jsval) : bool :=
  match v with JUndefined => true | _ => false end.

(** ToBoolean, as used by [if (error)]. *)
Definition truthy (v : jsval) : bool :=
  match v with
  | JUndefined | JNull => false
  | JBool b => b
  | JNum n => negb (Z.eqb n 0)
  | JStr s => match s with [] => false | _ => true end
  | JArr _ | JObj _ => true
  end.

Fixpoint lookup {A} (name : jsstring) (fields : list (jsstring * A)) : option A :=
  match fields with
  | [] => None
  | (k, v) :: rest => if str_eqb k name then Some v else lookup name rest
  end.

(** Property read [v.name] for a data property name ([access_token], [body]).
    [None] is the TypeError raised on [null] and [undefined]; a property that
    is missing reads as [undefined]. *)
Definition get_prop (v : jsval) (name : jsstring) : option jsval :=
  match v with
  | JUndefined | JNull => None
  | JObj fields =>
      Some (match lookup name fields with Some x => x | None => JUndefined end)
  | _ => Some JUndefined
  end.

(** Values of [request.query]: the query-string parser yields strings, arrays
    and nested objects; a parameter that is not in the URL reads as
    [undefined]. *)
Inductive qsval :=
| QUndefined
| QStr (s : jsstring)
| QArr (items : list qsval)
| QObj (fields : list (jsstring * qsval)).

Definition qs_truthy (v : qsval) : bool :=
  match v with
  | QUndefined => false
  | QStr s => match s with [] => false | _ => true end
  | QArr _ | QObj _ => true
  end.

(** ToString, as applied by [encodeURI] to its argument.  Arrays join their
    elements with a comma, [undefined] elements giving the empty string.  An
    object reads as ["[object Object]"] through the inherited [toString]; when
    the query string gave it a property of its own named [toString], which is
    never a function, the conversion finds nothing to call and raises a
    TypeError ([None]), also from inside an array. *)
Fixpoint qs_to_string (v : qsval) : option jsstring :=
  match v with
  | QUndefined => Some (js "undefined")
  | QStr s => Some s
  | QArr items =>
      (fix join (l : list qsval) : option jsstring :=
         match l with
         | [] => Some []
         | x :: rest =>
             match (match x with QUndefined => Some [] | _ => qs_to_string x end) with
             | None => None
             | Some sx =>
                 match rest with
                 | [] => Some sx
                 | _ :: _ => option_map (fun tail => sx ++ 44%N :: tail) (join rest)
                 end
             end
         end) items
  | QObj fields =>
      match lookup (js "toString") fields with
      | Some _ => None
      | None => Some (js "[object Object]")
      end
  end.

Definition query_param (name : jsstring) (query : list (jsstring * qsval)) : qsval :=
  match lookup name query with Some v => v | None => QUndefined end.

End JS.
Import JS.

(** ** URI encoding *)

Module URI.

Local Open Scope N_scope.

Definition in_range (lo hi c : N) : bool := (lo <=? c) && (c <=? hi).
Definition mem (c : N) (set : jsstring) : bool := existsb (N.eqb c) set.

Definition is_alpha (c : N) : bool := in_range 65 90 c || in_range 97 122 c.
Definition is_digit (c : N) : bool := in_range 48 57 c.

(** The character classes of the [encodeURI] built-in. *)
Definition uriReserved : jsstring := js ";/?:@&=+$,".
Definition uriMark : jsstring := js "-_.!~*'()".
Definition uriUnescaped (c : N) : bool := is_alpha c || is_digit c || mem c uriMark.
Definition encodeURI_unescaped (c : N) : bool :=
  mem c uriReserved || uriUnescaped c || (c =? 35).

Definition is_leading_surrogate (c : N) : bool := in_range 0xD800 0xDBFF c.
Definition is_trailing_surrogate (c : N) : bool := in_range 0xDC00 0xDFFF c.

Definition surrogate_pair_to_code_point (lead trail : N) : N :=
  (lead - 0xD800) * 0x400 + (trail - 0xDC00) + 0x10000.

(** The UTF-8 octets of a code point. *)
Definition utf8 (cp : N) : list N :=
  if cp <? 0x80 then [cp]
  else if cp <? 0x800 then
    [N.lor 0xC0 (N.shiftr cp 6); N.lor 0x80 (N.land cp 0x3F)]
  else if cp <? 0x10000 then
    [N.lor 0xE0 (N.shiftr cp 12);
     N.lor 0x80 (N.land (N.shiftr cp 6) 0x3F);
     N.lor 0x80 (N.land cp 0x3F)]
  else
    [N.lor 0xF0 (N.shiftr cp 18);
     N.lor 0x80 (N.land (N.shiftr cp 12) 0x3F);
     N.lor 0x80 (N.land (N.shiftr cp 6) 0x3F);
     N.lor 0x80 (N.land cp 0x3F)].

Definition hex_digit (d : N) : N := if d <? 10 then 48 + d else 55 + d.

(** ["%XX"] with upper-case hexadecimal digits. *)
Definition percent (octet : N) : jsstring :=
  [37; hex_digit (N.shiftr octet 4); hex_digit (N.land octet 0xF)].

Definition escape (cp : N) : jsstring := flat_map percent (utf8 cp).

(** The [Encode] operation behind [encodeURI]: code units of the unescaped
    set are copied, any other code point is replaced by the escapes of its
    UTF-8 octets; [None] is the URIError raised on an unpaired surrogate. *)
Fixpoint Encode (unescaped : N -> bool) (s : jsstring) : option jsstring :=
  match s with
  | [] => Some []
  | c :: rest =>
      if unescaped c then option_map (cons c) (Encode unescaped rest)
      else if is_trailing_surrogate c then None
      else if is_leading_surrogate c then
        match rest with
        | [] => None
        | d :: rest' =>
            if is_trailing_surrogate d then
              option_map (app (escape (surrogate_pair_to_code_point c d)))
                         (Encode unescaped rest')
            else None
        end
      else option_map (app (escape c)) (Encode unescaped rest)
  end.

Definition encodeURI (s : jsstring) : option jsstring :=
  Encode encodeURI_unescaped s.

End URI.
Import URI.

(** ** The server *)

Module Server.

(** The server-side session object; [sfdcAuth] is [undefined] until the OAuth
    callback has stored a credential.  [cookie] stands for the data the session
    middleware keeps in the same object. *)
Record Session := { sfdcAuth : jsval; cookie : jsval }.

Record Request := {
  req_query : list (jsstring * qsval);   (* request.query *)
  req_session : Session                  (* request.session on entry *)
}.

(** What the handler handed to the response object. *)
Inductive Body :=
| Send (v : jsval)            (* response.send(v) *)
| Json (v : jsval)            (* response.json(v) *)
| Location (url : jsstring).  (* response.redirect(url) *)

(** Outbound calls to the upstream service. *)
Inductive Call :=
| Authenticate (code : qsval)              (* sfdc.auth.authenticate *)
| Revoke (token : jsval)                   (* sfdc.auth.revoke *)
| GetLoggedUser (auth : jsval)             (* sfdc.data.getLoggedUser *)
| HttpGet (options : jsval).               (* httpClient.get *)

(** The libraries the handlers rely on.  Each call is taken to return and to
    invoke the handler's callback once; the fields give the arguments the
    callback receives: an error alone, or an error and a payload.
    [getAuthorizationUrl] and [createDataRequest] are the URL and the request
    options the Salesforce client builds, and [store_destroy] is the error the
    session store reports to the callback of [session.destroy]. *)
Record Upstream := {
  getAuthorizationUrl : jsstring -> jsstring;
  createDataRequest : jsval -> jsstring -> jsval;
  authenticate : qsval -> jsval * jsval;
  revoke : jsval -> jsval;
  getLoggedUser : jsval -> jsval * jsval;
  http_get : jsval -> jsval * jsval;
  store_destroy : jsval
}.

(** Everything a handler can change: the session attached to the request
    ([None] once destroyed), the response, the calls made so far and the
    console. *)
Record Ctx := {
  session : option Session;
  statusCode : Z;
  sent : option Body;
  calls : list Call;
  console : list (string * jsval)
}.

Inductive Exn := TypeError | URIError.

(** How a handler ends: it returns, or it raises; [c] is the context it
    leaves behind, with the response it has sent, if any. *)
Inductive Outcome :=
| Done (c : Ctx)
| Threw (e : Exn) (c : Ctx).

Definition final (o : Outcome) : Ctx :=
  match o with Done c | Threw _ c => c end.

Definition start (request : Request) : Ctx :=
  {| session := Some (req_session request); statusCode := 200; sent := None;
     calls := []; console := [] |}.

Definition status (code : Z) (c : Ctx) : Ctx :=
  {| session := session c; statusCode := code; sent := sent c;
     calls := calls c; console := console c |}.

Definition respond (b : Body) (c : Ctx) : Ctx :=
  {| session := session c; statusCode := statusCode c; sent := Some b;
     calls := calls c; console := console c |}.

Definition send (v : jsval) : Ctx -> Ctx := respond (Send v).
Definition json (v : jsval) : Ctx -> Ctx := respond (Json v).
Definition redirect (url : jsstring) (c : Ctx) : Ctx :=
  respond (Location url) (status 302 c).

Definition call (k : Call) (c : Ctx) : Ctx :=
  {| session := session c; statusCode := statusCode c; sent := sent c;
     calls := calls c ++ [k]; console := console c |}.

Definition log (prefix : string) (v : jsval) (c : Ctx) : Ctx :=
  {| session := session c; statusCode := statusCode c; sent := sent c;
     calls := calls c; console := console c ++ [(prefix, v)] |}.

(** [request.session.sfdcAuth = payload] *)
Definition set_sfdcAuth (payload : jsval) (c : Ctx) : Ctx :=
  {| session := option_map (fun s => {| sfdcAuth := payload; cookie := cookie s |})
                           (session c);
     statusCode := statusCode c; sent := sent c;
     calls := calls c; console := console c |}.

(** [session.destroy(...)]: the session is removed from the request. *)
Definition destroy (c : Ctx) : Ctx :=
  {| session := None; statusCode := statusCode c; sent := sent c;
     calls := calls c; console := console c |}.

(** The status and body of the response, once one has been sent. *)
Definition response (c : Ctx) : option (Z * Body) :=
  option_map (fun b => (statusCode c, b)) (sent c).

(** The credential the request's session holds; [undefined] when there is
    none, or no session any more. *)
Definition credential (c : Ctx) : jsval :=
  match session c with Some s => sfdcAuth s | None => JUndefined end.

(** A request is authenticated when its session holds a credential. *)
Definition authenticated (request : Request) : bool :=
  negb (is_undefined (sfdcAuth (req_session request))).

(** A query parameter that is not in the URL, or is there with no text. *)
Definition absent_or_empty (v : qsval) : Prop := v = QUndefined \/ v = QStr [].

(** [getSession] (lines 35-42) *)
Definition getSession (request : Request) (response : Ctx) : Ctx * option Session :=
  let session := req_session request in
  if is_undefined (sfdcAuth session) then
    (send (JStr (js "No active session")) (status 401 response), None)
  else (response, Some session).

(** [GET /auth/login] (lines 48-52) *)
Definition auth_login (sfdc : Upstream) (request : Request) : Outcome :=
  let uri := getAuthorizationUrl sfdc (js "api") in
  Done (redirect uri (start request)).

(** [GET /auth/callback] (lines 58-79) *)
Definition auth_callback (sfdc : Upstream) (request : Request) : Outcome :=
  let c := start request in
  let code := query_param (js "code") (req_query request) in
  if negb (qs_truthy code) then
    Done (send (JStr (js "Failed to get authorization code from server callback."))
               (status 500 c))
  else
    let c := call (Authenticate code) c in
    let '(error, payload) := authenticate sfdc code in
    if truthy error then
      let c := log "Force.com authentication error: " error c in
      Done (json error (status 500 c))
    else
      let c := set_sfdcAuth payload c in
      Done (redirect (js "/index.html") c).

(** [GET /auth/logout] (lines 85-107) *)
Definition auth_logout (sfdc : Upstream) (request : Request) : Outcome :=
  let '(c, session) := getSession request (start request) in
  match session with
  | None => Done c
  | Some session =>
      match get_prop (sfdcAuth session) (js "access_token") with
      | None => Threw TypeError c
      | Some token =>
          let c := call (Revoke token) c in
          let error := revoke sfdc token in
          if truthy error then
            let c := log "Force.com OAuth revoke error: " error c in
            Done (json error (status 500 c))
          else
            let c := destroy c in
            let c := redirect (js "/index.html") c in
            let error := store_destroy sfdc in
            Done (if truthy error
                  then log "Force.com session destruction error: " error c
                  else c)
      end
  end.

(** [GET /auth/whoami] (lines 113-129) *)
Definition auth_whoami (sfdc : Upstream) (request : Request) : Outcome :=
  let '(c, session) := getSession request (start request) in
  match session with
  | None => Done c
  | Some session =>
      let c := call (GetLoggedUser (sfdcAuth session)) c in
      let '(error, userData) := getLoggedUser sfdc (sfdcAuth session) in
      if truthy error then
        let c := log "Force.com identity API error: " error c in
        Done (json error (status 500 c))
      else Done (send userData c)
  end.

(** [GET /query] (lines 135-159) *)
Definition query (sfdc : Upstream) (request : Request) : Outcome :=
  let '(c, session) := getSession request (start request) in
  match session with
  | None => Done c
  | Some session =>
      let q := query_param (js "q") (req_query request) in
      if negb (qs_truthy q) then
        Done (send (JStr (js "Missing query parameter.")) (status 400 c))
      else
        match qs_to_string q with
        | None => Threw TypeError c
        | Some text =>
            match encodeURI text with
            | None => Threw URIError c
            | Some query =>
                let apiRequestOptions :=
                  createDataRequest sfdc (sfdcAuth session) (js "query?q=" ++ query) in
                let c := call (HttpGet apiRequestOptions) c in
                let '(error, payload) := http_get sfdc apiRequestOptions in
                if truthy error then
                  let c := log "Force.com data API error: " error c in
                  Done (json error (status 500 c))
                else
                  match get_prop payload (js "body") with
                  | None => Threw TypeError c
                  | Some body => Done (send body c)
                  end
            end
        end
  end.

End Server.
Import Server.

(** ** The specification's notion of percent-encoding *)

Module Spec.

Local Open Scope N_scope.

(** A query string as the specification sees it: a sequence of Unicode
    characters (scalar values), held by the program in UTF-16. *)
Definition is_scalar (cp : N) : bool :=
  (cp <? 0x110000) && negb (in_range 0xD800 0xDFFF cp).

Definition utf16 (cp : N) : jsstring :=
  if cp <? 0x10000 then [cp]
  else [0xD800 + (cp - 0x10000) / 0x400; 0xDC00 + (cp - 0x10000) mod 0x400].

Definition to_jsstring (t : list N) : jsstring := flat_map utf16 t.

(** The characters that never need an escape (RFC 3986, 2.3): letters,
    digits, hyphen, period, underscore and tilde. *)
Definition unreserved (c : N) : bool := is_alpha c || is_digit c || mem c (js "-._~").

(** In the value of a query parameter every other character requires
    escaping: the delimiters of a URI and of a query string ([#], [&], [=],
    [+] and the like) would otherwise be read as delimiters. *)
Definition requires_escaping (c : N) : bool := negb (unreserved c).

(** The percent-encoded form: every character that requires escaping is
    replaced by the escapes of its UTF-8 octets, the others are kept. *)
Definition percent_encoded_form (t : list N) : jsstring :=
  flat_map (fun cp => if requires_escaping cp then escape cp else [cp]) t.

(** The characters that require escaping and that [encodeURI] nevertheless
    copies. *)
Definition encodeURI_kept (c : N) : bool := mem c (js ";/?:@&=+$,#!*'()").

(** The percent-encoded form with those characters kept as they are. *)
Definition percent_encoded_except_kept (t : list N) : jsstring :=
  flat_map (fun cp => if requires_escaping cp && negb (encodeURI_kept cp)
                      then escape cp else [cp]) t.



End Spec.
Import Spec.

(** ** Concrete sessions, requests and upstream behaviours *)

Module Examples.

Definition token : jsval := JStr (js "00Dxx0000001gPL!AR8AQJ").

Definition oauth_payload : jsval :=
  JObj [(js "access_token", token);
        (js "instance_url", JStr (js "https://eu1.salesforce.com"));
        (js "token_type", JStr (js "Bearer"))].

Definition network_error : jsval :=
  JObj [(js "code", JStr (js "ECONNRESET"))].

Definition user_data : jsval := JObj [(js "username", JStr (js "ada@example.com"))].

Definition records : jsval := JStr (js "{totalSize:0,done:true,records:[]}").

Definition anonymous : Session := {| sfdcAuth := JUndefined; cookie := JObj [] |}.
Definition logged_in : Session := {| sfdcAuth := oauth_payload; cookie := JObj [] |}.

(** Every upstream call succeeds. *)
Definition healthy : Upstream :=
  {| getAuthorizationUrl := fun scope =>
       js "https://login.salesforce.com/services/oauth2/authorize?scope=" ++ scope;
     createDataRequest := fun auth resource =>
       JObj [(js "url", JStr (js "https://eu1.salesforce.com/services/data/v41.0/"
                              ++ resource));
             (js "auth", auth)];
     authenticate := fun _ => (JNull, oauth_payload);
     revoke := fun _ => JNull;
     getLoggedUser := fun _ => (JNull, user_data);
     http_get := fun _ => (JNull, JObj [(js "statusCode", JNum 200); (js "body", records)]);
     store_destroy := JUndefined |}.

(** Every upstream call fails. *)
Definition unreachable : Upstream :=
  {| getAuthorizationUrl := getAuthorizationUrl healthy;
     createDataRequest := createDataRequest healthy;
     authenticate := fun _ => (network_error, JUndefined);
     revoke := fun _ => network_error;
     getLoggedUser := fun _ => (network_error, JUndefined);
     http_get := fun _ => (network_error, JUndefined);
     store_destroy := JUndefined |}.

Definition plain (session : Session) : Request :=
  {| req_query := []; req_session := session |}.

Definition with_code (session : Session) : Request :=
  {| req_query := [(js "code", QStr (js "aPrx4sgoM2Nd1zWeFVlOWveD0HhYmiDiLmlLnXEBgX01"))];
     req_session := session |}.

Definition with_q (s : jsstring) (session : Session) : Request :=
  {| req_query := [(js "q", QStr s)]; req_session := session |}.

Definition soql : list N := js "SELECT Id FROM X".

Definition tagged : list N := js "a#b".

End Examples.
Import Examples.

(** ** The routes, and notions used to state further properties *)

Module Routes.

Local Open Scope N_scope.

(** The handlers registered with [app.get], in the order of the source. *)
Definition handlers : list (Upstream -> Request -> Outcome) :=
  [auth_login; auth_callback; auth_logout; auth_whoami; query].

(** A JavaScript string holds 16-bit code units. *)
Definition is_code_unit (c : N) : bool := c <? 0x10000.

(** The characters an encoded URI is made of: those [encodeURI] copies, and
    the percent sign that starts an escape. *)
Definition uri_char (c : N) : bool := encodeURI_unescaped c || (c =? 37).

(** A string in which every percent sign has been escaped once more. *)
Definition escape_percent (e : jsstring) : jsstring :=
  flat_map (fun c => if c =? 37 then js "%25" else [c]) e.

(** [Array.prototype.join] with a comma, on strings. *)
Fixpoint join_comma (l : list jsstring) : jsstring :=
  match l with
  | [] => []
  | [x] => x
  | x :: rest => x ++ 44 :: join_comma rest
  end.

(** Further sample data: a session whose credential is [null], a request
    with a repeated [q] parameter, a string cut in the middle of a surrogate
    pair, and an upstream whose callbacks report neither error nor payload. *)
Definition null_session : Session := {| sfdcAuth := JNull; cookie := JObj [] |}.

Definition with_param (name : jsstring) (v : qsval) (session : Session) : Request :=
  {| req_query := [(name, v)]; req_session := session |}.

Definition repeated_q : qsval := QArr [QStr (js "Id"); QStr (js "Name of X")].

Definition cut_string : jsstring := js "Id " ++ [0xD83D].

Definition reserved_only : jsstring := js "a=1&b=2#c".

(** The parameter [q[toString]=x]. *)
Definition shadowing_q : qsval := QObj [(js "toString", QStr (js "x"))].



Definition mute : Upstream :=
  {| getAuthorizationUrl := getAuthorizationUrl healthy;
     createDataRequest := createDataRequest healthy;
     authenticate := fun _ => (JNull, JUndefined);
     revoke := fun _ => JNull;
     getLoggedUser := fun _ => (JNull, JUndefined);
     http_get := fun _ => (JNull, JUndefined);
     store_destroy := JUndefined |}.

End Routes.
Import Routes.

(** ** [encodeURI] against the specification's percent-encoding *)

Section Encoding.

Local Open Scope N_scope.

Lemma unescaped_unreserved_or_kept c :
  encodeURI_unescaped c = unreserved c || encodeURI_kept c.
Proof.
  apply eq_true_iff_eq.
  unfold encodeURI_unescaped, encodeURI_kept, unreserved,
    uriUnescaped, is_alpha, is_digit, in_range, mem.
  cbn.
  rewrite ?orb_true_iff, ?andb_true_iff, ?N.eqb_eq, ?N.leb_le.
  lia.
Qed.

Lemma unescaped_ascii c : encodeURI_unescaped c = true -> c < 128.
Proof.
  unfold encodeURI_unescaped, uriUnescaped, is_alpha, is_digit, in_range, mem.
  cbn.
  rewrite ?orb_true_iff, ?andb_true_iff, ?N.eqb_eq, ?N.leb_le.
  lia.
Qed.

Lemma escaped_not_unescaped c : 128 <= c -> encodeURI_unescaped c = false.
Proof.
  intros H. destruct (encodeURI_unescaped c) eqn:E; [|reflexivity].
  apply unescaped_ascii in E. lia.
Qed.

Lemma scalar_bounds cp :
  is_scalar cp = true -> cp < 0x110000 /\ (cp < 0xD800 \/ 0xDFFF < cp).
Proof.
  unfold is_scalar, in_range.
  rewrite andb_true_iff, negb_true_iff, andb_false_iff, N.ltb_lt, !N.leb_gt.
  lia.
Qed.

Lemma surrogate_pair_utf16 cp :
  0x10000 <= cp < 0x110000 ->
  let lead := 0xD800 + (cp - 0x10000) / 0x400 in
  let trail := 0xDC00 + (cp - 0x10000) mod 0x400 in
  128 <= lead /\
  is_leading_surrogate lead = true /\ is_trailing_surrogate lead = false /\
  is_trailing_surrogate trail = true /\
  surrogate_pair_to_code_point lead trail = cp.
Proof.
  intros H lead trail.
  pose proof (N.div_mod (cp - 0x10000) 0x400 ltac:(discriminate)) as D.
  pose proof (N.mod_lt (cp - 0x10000) 0x400 ltac:(discriminate)) as M.
  assert (Q : (cp - 0x10000) / 0x400 < 0x400)
    by (apply N.Div0.div_lt_upper_bound; lia).
  unfold is_leading_surrogate, is_trailing_surrogate, in_range,
    surrogate_pair_to_code_point.
  subst lead trail.
  generalize dependent ((cp - 0x10000) / 0x400).
  generalize dependent ((cp - 0x10000) mod 0x400).
  intros m M q D Q.
  rewrite !andb_true_iff, andb_false_iff, !N.leb_le, !N.leb_gt.
  lia.
Qed.

(** One character of the specification's string through [Encode]. *)
Lemma Encode_utf16 cp rest :
  is_scalar cp = true ->
  Encode encodeURI_unescaped (utf16 cp ++ rest) =
  option_map
    (app (if requires_escaping cp && negb (encodeURI_kept cp)
          then escape cp else [cp]))
    (Encode encodeURI_unescaped rest).
Proof.
  intros Hs. apply scalar_bounds in Hs. destruct Hs as [Hmax Hsur].
  unfold utf16. destruct (cp <? 0x10000) eqn:Hbmp.
  - apply N.ltb_lt in Hbmp. cbn [app Encode].
    unfold requires_escaping.
    rewrite unescaped_unreserved_or_kept.
    destruct (unreserved cp || encodeURI_kept cp) eqn:Hq.
    + assert (negb (unreserved cp) && negb (encodeURI_kept cp) = false) as ->.
      { rewrite <- negb_orb, Hq. reflexivity. }
      destruct (Encode encodeURI_unescaped rest); reflexivity.
    + assert (negb (unreserved cp) && negb (encodeURI_kept cp) = true) as ->.
      { rewrite <- negb_orb, Hq. reflexivity. }
      assert (is_trailing_surrogate cp = false) as ->.
      { unfold is_trailing_surrogate, in_range.
        rewrite andb_false_iff, !N.leb_gt. lia. }
      assert (is_leading_surrogate cp = false) as ->.
      { unfold is_leading_surrogate, in_range.
        rewrite andb_false_iff, !N.leb_gt. lia. }
      reflexivity.
  - apply N.ltb_ge in Hbmp.
    destruct (surrogate_pair_utf16 cp (conj Hbmp Hmax))
      as (Hhigh & Hl & Hlt & Ht & Hp).
    set (lead := 0xD800 + (cp - 0x10000) / 0x400) in *.
    set (trail := 0xDC00 + (cp - 0x10000) mod 0x400) in *.
    cbn [app Encode].
    rewrite (escaped_not_unescaped lead Hhigh), Hlt, Hl, Ht, Hp.
    assert (requires_escaping cp && negb (encodeURI_kept cp) = true) as ->.
    { unfold requires_escaping. rewrite <- negb_orb, <- unescaped_unreserved_or_kept.
      rewrite escaped_not_unescaped by lia. reflexivity. }
    reflexivity.
Qed.

(** [encodeURI] never fails on a string of Unicode characters, and yields
    its percent-encoded form except for the characters it keeps. *)
Lemma encodeURI_to_jsstring t :
  forallb is_scalar t = true ->
  encodeURI (to_jsstring t) = Some (percent_encoded_except_kept t).
Proof.
  unfold encodeURI, to_jsstring, percent_encoded_except_kept.
  induction t as [|cp t IH]; intros H; [reflexivity|].
  cbn [forallb] in H. apply andb_true_iff in H. destruct H as [Hcp Ht].
  cbn [flat_map]. rewrite Encode_utf16 by exact Hcp.
  rewrite IH by exact Ht. reflexivity.
Qed.

Lemma except_kept_without_kept t :
  existsb encodeURI_kept t = false ->
  percent_encoded_except_kept t = percent_encoded_form t.
Proof.
  unfold percent_encoded_except_kept, percent_encoded_form.
  induction t as [|cp t IH]; intros H; [reflexivity|].
  cbn [existsb] in H. apply orb_false_iff in H. destruct H as [Hcp Ht].
  cbn [flat_map]. rewrite IH by exact Ht.
  rewrite Hcp, andb_true_r. reflexivity.
Qed.

End Encoding.

(** ** The handlers *)

Section Handlers.

Variable sfdc : Upstream.
Variable request : Request.

Lemma absent_or_empty_falsy v : absent_or_empty v <-> qs_truthy v = false.
Proof.
  split.
  - intros [-> | ->]; reflexivity.
  - destruct v as [|[|c s]| |]; cbn; intros H; try discriminate H.
    + left; reflexivity.
    + right; reflexivity.
Qed.

Lemma getSession_unauthenticated c :
  authenticated request = false ->
  getSession request c =
  (send (JStr (js "No active session")) (status 401 c), None).
Proof.
  unfold authenticated, getSession. intros H.
  apply negb_false_iff in H. rewrite H. reflexivity.
Qed.

Lemma getSession_authenticated c :
  authenticated request = true ->
  getSession request c = (c, Some (req_session request)).
Proof.
  unfold authenticated, getSession. intros H.
  apply negb_true_iff in H. rewrite H. reflexivity.
Qed.

(** C2. A request to a protected endpoint (whoami, query, logout) whose
    session holds no credential is answered with HTTP 401 and the text
    "No active session"; no call to the upstream service is made. *)
Theorem unauthenticated_request_rejected handler :
  In handler [auth_whoami; query; auth_logout] ->
  authenticated request = false ->
  response (final (handler sfdc request)) =
    Some (401%Z, Send (JStr (js "No active session"))) /\
  calls (final (handler sfdc request)) = [].
Proof.
  intros Hin Hanon.
  assert (handler sfdc request =
          Done (send (JStr (js "No active session")) (status 401 (start request))))
    as ->.
  { cbn [In] in Hin.
    destruct Hin as [<- | [<- | [<- | []]]];
      unfold auth_whoami, query, auth_logout;
      rewrite (getSession_unauthenticated _ Hanon); reflexivity. }
  split; reflexivity.
Qed.

(** C6. A callback request with no [code] parameter is answered with HTTP 500
    and a diagnostic text; the authorization server is not called. *)
Theorem callback_without_code :
  lookup (js "code") (req_query request) = None ->
  response (final (auth_callback sfdc request)) =
    Some (500%Z, Send (JStr (js "Failed to get authorization code from server callback."))) /\
  calls (final (auth_callback sfdc request)) = [].
Proof.
  intros H. unfold auth_callback, query_param. rewrite H. split; reflexivity.
Qed.

(** C4. When the callback request carries a code and the exchange succeeds
    with payload P, the session's credential afterwards is P and the response
    is a 302 redirect to /index.html. *)
Theorem callback_stores_credential code error payload :
  query_param (js "code") (req_query request) = code ->
  qs_truthy code = true ->
  authenticate sfdc code = (error, payload) ->
  truthy error = false ->
  credential (final (auth_callback sfdc request)) = payload /\
  response (final (auth_callback sfdc request)) =
    Some (302%Z, Location (js "/index.html")).
Proof.
  intros Hcode Htruthy Hauth Herr.
  unfold auth_callback. rewrite Hcode, Htruthy. cbn [negb].
  rewrite Hauth, Herr. split; reflexivity.
Qed.

(** C9. When the code-for-credential exchange fails, the callback answers
    HTTP 500 with the upstream error and leaves the session as it was. *)
Theorem callback_failure_keeps_session code error payload :
  query_param (js "code") (req_query request) = code ->
  qs_truthy code = true ->
  authenticate sfdc code = (error, payload) ->
  truthy error = true ->
  response (final (auth_callback sfdc request)) = Some (500%Z, Json error) /\
  session (final (auth_callback sfdc request)) = Some (req_session request) /\
  credential (final (auth_callback sfdc request)) = sfdcAuth (req_session request).
Proof.
  intros Hcode Htruthy Hauth Herr.
  unfold auth_callback. rewrite Hcode, Htruthy. cbn [negb].
  rewrite Hauth, Herr. repeat split.
Qed.

(** C7. A query request on an authenticated session whose [q] parameter is
    absent or empty is answered with HTTP 400 and a diagnostic text; the data
    API is not called. *)
Theorem query_without_q :
  authenticated request = true ->
  absent_or_empty (query_param (js "q") (req_query request)) ->
  response (final (query sfdc request)) =
    Some (400%Z, Send (JStr (js "Missing query parameter."))) /\
  calls (final (query sfdc request)) = [].
Proof.
  intros Hauth Hq. apply absent_or_empty_falsy in Hq.
  unfold query. rewrite (getSession_authenticated _ Hauth), Hq.
  split; reflexivity.
Qed.

(** C10. In the query endpoint the authentication check comes first: with no
    credential in the session and no [q] parameter the answer is HTTP 401,
    not HTTP 400. *)
Theorem query_checks_session_first :
  authenticated request = false ->
  absent_or_empty (query_param (js "q") (req_query request)) ->
  response (final (query sfdc request)) =
    Some (401%Z, Send (JStr (js "No active session"))) /\
  statusCode (final (query sfdc request)) <> 400%Z.
Proof.
  intros Hanon _. unfold query.
  rewrite (getSession_unauthenticated _ Hanon).
  split; [reflexivity | discriminate].
Qed.

(** C8. The whoami and query handlers leave the session, and with it the
    credential slot, exactly as they found it, whatever the upstream answers;
    so does login. *)
Theorem whoami_query_preserve_session :
  (session (final (auth_whoami sfdc request)) = Some (req_session request) /\
   credential (final (auth_whoami sfdc request)) = sfdcAuth (req_session request)) /\
  (session (final (query sfdc request)) = Some (req_session request) /\
   credential (final (query sfdc request)) = sfdcAuth (req_session request)) /\
  (session (final (auth_login sfdc request)) = Some (req_session request) /\
   credential (final (auth_login sfdc request)) = sfdcAuth (req_session request)).
Proof.
  split; [|split].
  - unfold auth_whoami, getSession.
    destruct (is_undefined _); [split; reflexivity|].
    destruct (getLoggedUser _ _) as [error userData].
    destruct (truthy error); split; reflexivity.
  - unfold query, getSession.
    destruct (is_undefined _); [split; reflexivity|].
    destruct (negb _); [split; reflexivity|].
    destruct (qs_to_string _) as [text|]; [|split; reflexivity].
    destruct (encodeURI _) as [encoded|]; [|split; reflexivity].
    destruct (http_get _ _) as [error payload].
    destruct (truthy error); [split; reflexivity|].
    destruct (get_prop payload _); split; reflexivity.
  - split; reflexivity.
Qed.


Lemma to_jsstring_nonempty t : t <> [] -> qs_truthy (QStr (to_jsstring t)) = true.
Proof.
  destruct t as [|cp t]; [congruence|]. intros _.
  unfold to_jsstring. cbn [flat_map]. unfold utf16.
  destruct (N.ltb cp 65536); reflexivity.
Qed.

(** X26. For every non-empty query string of Unicode characters none of
    which is one of [; / ? : @ & = + $ , # ! * ' ( )], supplied as [q] on an
    authenticated session, the one upstream request made is for the resource
    [query?q=] followed by the percent-encoded form of the string. *)
Theorem query_forwards_percent_encoded t :
  authenticated request = true ->
  query_param (js "q") (req_query request) = QStr (to_jsstring t) ->
  t <> [] ->
  forallb is_scalar t = true ->
  existsb encodeURI_kept t = false ->
  calls (final (query sfdc request)) =
    [HttpGet (createDataRequest sfdc (sfdcAuth (req_session request))
                                (js "query?q=" ++ percent_encoded_form t))].
Proof.
  intros Hauth Hq Hne Hscalar Hhash.
  unfold query. rewrite (getSession_authenticated _ Hauth), Hq.
  rewrite (to_jsstring_nonempty t Hne). cbn [negb qs_to_string].
  rewrite (encodeURI_to_jsstring t Hscalar), (except_kept_without_kept t Hhash).
  destruct (http_get _ _) as [error payload].
  destruct (truthy error); [reflexivity|].
  destruct (get_prop payload _); reflexivity.
Qed.

(** C1, amended. A logout request on an authenticated session whose credential
    is not [null] asks the upstream to revoke the access token.  When the
    revocation succeeds the response is a 302 redirect to /index.html and the
    session is destroyed, so that it holds no credential, whatever the session
    store reports; when the revocation fails the response is HTTP 500 with the
    revocation error and the session keeps its credential. *)
Theorem logout_follows_revocation token :
  authenticated request = true ->
  get_prop (sfdcAuth (req_session request)) (js "access_token") = Some token ->
  calls (final (auth_logout sfdc request)) = [Revoke token] /\
  (truthy (revoke sfdc token) = false ->
   response (final (auth_logout sfdc request)) =
     Some (302%Z, Location (js "/index.html")) /\
   session (final (auth_logout sfdc request)) = None /\
   credential (final (auth_logout sfdc request)) = JUndefined) /\
  (truthy (revoke sfdc token) = true ->
   response (final (auth_logout sfdc request)) =
     Some (500%Z, Json (revoke sfdc token)) /\
   session (final (auth_logout sfdc request)) = Some (req_session request) /\
   credential (final (auth_logout sfdc request)) = sfdcAuth (req_session request)).
Proof.
  intros Hauth Htoken.
  unfold auth_logout. rewrite (getSession_authenticated _ Hauth), Htoken.
  destruct (truthy (revoke sfdc token)) eqn:Hrevoke.
  - split; [reflexivity|]. split; [discriminate|].
    intros _. repeat split.
  - split; [destruct (truthy (store_destroy sfdc)); reflexivity|].
    split; [|discriminate].
    intros _. destruct (truthy (store_destroy sfdc)); repeat split.
Qed.

End Handlers.

(** ** The theorems at concrete requests *)

(** An anonymous query request is turned away before any upstream call. *)
Lemma unauthenticated_request_rejected_witness :
  In query [auth_whoami; query; auth_logout] /\
  authenticated (with_q soql anonymous) = false /\
  response (final (query healthy (with_q soql anonymous))) =
    Some (401%Z, Send (JStr (js "No active session"))) /\
  calls (final (query healthy (with_q soql anonymous))) = [].
Proof.
  assert (Hin : In query [auth_whoami; query; auth_logout])
    by (right; left; reflexivity).
  assert (Hanon : authenticated (with_q soql anonymous) = false) by reflexivity.
  split; [exact Hin|]. split; [exact Hanon|].
  exact (unauthenticated_request_rejected healthy (with_q soql anonymous) query
           Hin Hanon).
Defined.

(** A callback request with an empty query string. *)
Lemma callback_without_code_witness :
  lookup (js "code") (req_query (plain anonymous)) = None /\
  response (final (auth_callback healthy (plain anonymous))) =
    Some (500%Z, Send (JStr (js "Failed to get authorization code from server callback."))) /\
  calls (final (auth_callback healthy (plain anonymous))) = [].
Proof.
  split; [reflexivity|].
  apply (callback_without_code healthy (plain anonymous)). reflexivity.
Defined.

(** A callback whose exchange succeeds stores the OAuth payload. *)
Lemma callback_stores_credential_witness :
  qs_truthy (query_param (js "code") (req_query (with_code anonymous))) = true /\
  authenticate healthy (query_param (js "code") (req_query (with_code anonymous))) =
    (JNull, oauth_payload) /\
  truthy JNull = false /\
  credential (final (auth_callback healthy (with_code anonymous))) = oauth_payload /\
  response (final (auth_callback healthy (with_code anonymous))) =
    Some (302%Z, Location (js "/index.html")).
Proof.
  split; [reflexivity|]. split; [reflexivity|]. split; [reflexivity|].
  apply (callback_stores_credential healthy (with_code anonymous)
           (query_param (js "code") (req_query (with_code anonymous))) JNull);
    reflexivity.
Defined.

(** A callback whose exchange fails, on a session that already holds a credential. *)
Lemma callback_failure_keeps_session_witness :
  qs_truthy (query_param (js "code") (req_query (with_code logged_in))) = true /\
  authenticate unreachable (query_param (js "code") (req_query (with_code logged_in))) =
    (network_error, JUndefined) /\
  truthy network_error = true /\
  response (final (auth_callback unreachable (with_code logged_in))) =
    Some (500%Z, Json network_error) /\
  session (final (auth_callback unreachable (with_code logged_in))) = Some logged_in /\
  credential (final (auth_callback unreachable (with_code logged_in))) = oauth_payload.
Proof.
  split; [reflexivity|]. split; [reflexivity|]. split; [reflexivity|].
  apply (callback_failure_keeps_session unreachable (with_code logged_in)
           (query_param (js "code") (req_query (with_code logged_in)))
           network_error JUndefined);
    reflexivity.
Defined.

(** A query request with [q] present but empty. *)
Lemma query_without_q_witness :
  authenticated (with_q [] logged_in) = true /\
  absent_or_empty (query_param (js "q") (req_query (with_q [] logged_in))) /\
  response (final (query healthy (with_q [] logged_in))) =
    Some (400%Z, Send (JStr (js "Missing query parameter."))) /\
  calls (final (query healthy (with_q [] logged_in))) = [].
Proof.
  assert (Hq : absent_or_empty (query_param (js "q") (req_query (with_q [] logged_in))))
    by (right; reflexivity).
  split; [reflexivity|]. split; [exact Hq|].
  apply (query_without_q healthy (with_q [] logged_in)); [reflexivity | exact Hq].
Defined.

(** An anonymous query request with no [q]. *)
Lemma query_checks_session_first_witness :
  authenticated (plain anonymous) = false /\
  absent_or_empty (query_param (js "q") (req_query (plain anonymous))) /\
  response (final (query healthy (plain anonymous))) =
    Some (401%Z, Send (JStr (js "No active session"))) /\
  statusCode (final (query healthy (plain anonymous))) <> 400%Z.
Proof.
  assert (Hq : absent_or_empty (query_param (js "q") (req_query (plain anonymous))))
    by (left; reflexivity).
  split; [reflexivity|]. split; [exact Hq|].
  apply (query_checks_session_first healthy (plain anonymous)); [reflexivity | exact Hq].
Defined.


(** The spaces of a SOQL query are forwarded as [%20]. *)
Lemma query_forwards_percent_encoded_witness :
  authenticated (with_q (to_jsstring soql) logged_in) = true /\
  soql <> [] /\
  forallb is_scalar soql = true /\
  existsb encodeURI_kept soql = false /\
  calls (final (query healthy (with_q (to_jsstring soql) logged_in))) =
    [HttpGet (createDataRequest healthy oauth_payload (js "query?q=SELECT%20Id%20FROM%20X"))].
Proof.
  assert (Hne : soql <> []) by discriminate.
  split; [reflexivity|]. split; [exact Hne|].
  split; [reflexivity|]. split; [reflexivity|].
  apply (query_forwards_percent_encoded healthy (with_q (to_jsstring soql) logged_in)
           soql);
    solve [reflexivity | exact Hne].
Defined.

(** A logout whose revocation succeeds. *)
Lemma logout_follows_revocation_witness :
  authenticated (plain logged_in) = true /\
  get_prop (sfdcAuth (req_session (plain logged_in))) (js "access_token") = Some token /\
  truthy (revoke healthy token) = false /\
  response (final (auth_logout healthy (plain logged_in))) =
    Some (302%Z, Location (js "/index.html")) /\
  session (final (auth_logout healthy (plain logged_in))) = None /\
  credential (final (auth_logout healthy (plain logged_in))) = JUndefined.
Proof.
  split; [reflexivity|]. split; [reflexivity|]. split; [reflexivity|].
  refine (proj1 (proj2 (logout_follows_revocation healthy (plain logged_in) token
                          _ _)) _);
    reflexivity.
Defined.

(** ** Where the code departs from the specification *)

(** C1 as the specification states it fails when the revocation fails: the
    logout is answered with HTTP 500 and the session keeps its credential. *)
Lemma logout_blocked_by_failed_revocation :
  authenticated (plain logged_in) = true /\
  response (final (auth_logout unreachable (plain logged_in))) =
    Some (500%Z, Json network_error) /\
  credential (final (auth_logout unreachable (plain logged_in))) = oauth_payload /\
  ~ (response (final (auth_logout unreachable (plain logged_in))) =
       Some (302%Z, Location (js "/index.html")) /\
     credential (final (auth_logout unreachable (plain logged_in))) = JUndefined).
Proof.
  split; [reflexivity|]. split; [reflexivity|]. split; [reflexivity|].
  intros [H _]. discriminate H.
Qed.


(** C5. The code at the request [q = a#b]: the number sign requires escaping
    and the percent-encoded form of the string is [a%23b], yet the resource
    forwarded is [query?q=a#b], where the query component ends before the
    number sign. *)
Lemma query_number_sign_not_encoded :
  authenticated (with_q (to_jsstring tagged) logged_in) = true /\
  forallb is_scalar tagged = true /\
  requires_escaping 35 = true /\
  percent_encoded_form tagged = js "a%23b" /\
  calls (final (query healthy (with_q (to_jsstring tagged) logged_in))) =
    [HttpGet (createDataRequest healthy oauth_payload (js "query?q=a#b"))] /\
  calls (final (query healthy (with_q (to_jsstring tagged) logged_in))) <>
    [HttpGet (createDataRequest healthy oauth_payload
                (js "query?q=" ++ percent_encoded_form tagged))].
Proof.
  split; [reflexivity|]. split; [reflexivity|]. split; [reflexivity|].
  split; [reflexivity|]. split; [reflexivity|].
  intros H. discriminate H.
Qed.

(** ** Further properties of the handlers *)

Section Routes.

Variable sfdc : Upstream.
Variable request : Request.

Ltac branches :=
  repeat match goal with
         | |- context [match ?x with _ => _ end] =>
             lazymatch x with
             | context [match _ with _ => _ end] => fail
             | _ => destruct x eqn:?
             end
         end.

Ltac each_handler :=
  unfold handlers;
  repeat (apply Forall_cons; [|]); try apply Forall_nil;
  unfold auth_login, auth_callback, auth_logout, auth_whoami, query, getSession;
  destruct (is_undefined (sfdcAuth (req_session request))) eqn:?.

(** X1. Login needs no session and reads nothing of the request: whatever
    the request, the response is a 302 redirect to the URL the Salesforce
    client builds for the scope [api]; no upstream call is made and nothing is
    logged. *)
Theorem login_redirects_to_authorization_url :
  response (final (auth_login sfdc request)) =
    Some (302%Z, Location (getAuthorizationUrl sfdc (js "api"))) /\
  calls (final (auth_login sfdc request)) = [] /\
  console (final (auth_login sfdc request)) = [] /\
  forall other, response (final (auth_login sfdc other)) =
                response (final (auth_login sfdc request)).
Proof.
  repeat split.
Qed.

(** X2. On an authenticated session whoami asks the identity API once, with
    the credential of the session; an error is answered with HTTP 500 carrying
    that error, and otherwise the user data is sent as it is with status
    200. *)
Theorem whoami_passes_upstream_answer error userData :
  authenticated request = true ->
  getLoggedUser sfdc (sfdcAuth (req_session request)) = (error, userData) ->
  calls (final (auth_whoami sfdc request)) =
    [GetLoggedUser (sfdcAuth (req_session request))] /\
  response (final (auth_whoami sfdc request)) =
    (if truthy error then Some (500%Z, Json error)
     else Some (200%Z, Send userData)).
Proof.
  intros Hauth Hget.
  unfold auth_whoami. rewrite (getSession_authenticated request _ Hauth), Hget.
  destruct (truthy error); split; reflexivity.
Qed.

(** X3. A session whose credential is [null] passes the session check, and
    logout then raises a TypeError while reading the access token: no
    revocation is requested, no response is sent and the session is kept. *)
Theorem logout_null_credential_raises :
  sfdcAuth (req_session request) = JNull ->
  authenticated request = true /\
  auth_logout sfdc request = Threw TypeError (start request).
Proof.
  intros H. unfold authenticated, auth_logout, getSession. rewrite H.
  cbn. rewrite H. split; reflexivity.
Qed.

(** X4. No handler makes more than one upstream call for a request. *)
Theorem at_most_one_upstream_call :
  Forall (fun handler => List.length (calls (final (handler sfdc request))) <= 1)
         handlers.
Proof.
  each_handler; branches; cbn; lia.
Qed.

(** X5. A handler that returns has sent a response, with one of the status
    codes 200, 302, 400, 401 and 500; a handler that raises has sent none. *)
Theorem returned_handler_has_answered :
  Forall (fun handler =>
            match handler sfdc request with
            | Done c => exists body, sent c = Some body /\
                        In (statusCode c) [200; 302; 400; 401; 500]%Z
            | Threw _ c => sent c = None
            end)
         handlers.
Proof.
  each_handler; branches; cbn;
    try reflexivity; eexists; (split; [reflexivity|]); cbn; tauto.
Qed.

(** X6. A request answered with 400 or 401 has caused no upstream call and
    no console output. *)
Theorem rejected_request_is_silent :
  Forall (fun handler =>
            In (statusCode (final (handler sfdc request))) [400; 401]%Z ->
            calls (final (handler sfdc request)) = [] /\
            console (final (handler sfdc request)) = [])
         handlers.
Proof.
  each_handler; branches; cbn; intros [H | [H | []]];
    solve [discriminate H | split; reflexivity].
Qed.


(** X8. No handler touches the session data other than the credential: a
    session that is still attached after the handler carries the cookie it
    had before. *)
Theorem session_cookie_untouched :
  Forall (fun handler => forall s,
            session (final (handler sfdc request)) = Some s ->
            cookie s = cookie (req_session request))
         handlers.
Proof.
  each_handler; branches; cbn; intros s H; try discriminate H;
    injection H as <-; reflexivity.
Qed.

End Routes.

(** ** Further properties of [encodeURI] *)

Section EncodeURI.

Local Open Scope N_scope.

(** Induction following the recursion of [Encode], which consumes one code
    unit or a surrogate pair. *)
Lemma jsstring_pair_ind (P : jsstring -> Prop) :
  P [] ->
  (forall c rest,
      P rest -> (forall d rest', rest = d :: rest' -> P rest') -> P (c :: rest)) ->
  forall s, P s.
Proof.
  intros Hnil Hstep s.
  enough (P s /\ forall d rest', s = d :: rest' -> P rest') as [H _] by exact H.
  induction s as [|c rest [IH1 IH2]]; split.
  - exact Hnil.
  - intros d rest' H. discriminate H.
  - apply Hstep; assumption.
  - intros d rest' H. injection H as <- <-. exact IH1.
Qed.

Lemma option_map_Some {A B} (f : A -> B) (o : option A) (y : B) :
  option_map f o = Some y -> exists x, o = Some x /\ y = f x.
Proof.
  destruct o as [x|]; cbn; intros H; [|discriminate H].
  injection H as <-. exists x. split; reflexivity.
Qed.

(** One step of [Encode], as the shapes a successful run can have. *)
Lemma Encode_cons_Some u c rest e :
  Encode u (c :: rest) = Some e ->
  (u c = true /\ exists e', Encode u rest = Some e' /\ e = c :: e') \/
  (u c = false /\ is_trailing_surrogate c = false /\
   is_leading_surrogate c = false /\
   exists e', Encode u rest = Some e' /\ e = escape c ++ e') \/
  (u c = false /\ is_trailing_surrogate c = false /\
   is_leading_surrogate c = true /\
   exists d rest' e', rest = d :: rest' /\ is_trailing_surrogate d = true /\
     Encode u rest' = Some e' /\
     e = escape (surrogate_pair_to_code_point c d) ++ e').
Proof.
  cbn [Encode]. destruct (u c).
  - intros H. apply option_map_Some in H. left. split; [reflexivity | exact H].
  - destruct (is_trailing_surrogate c); [discriminate|].
    destruct (is_leading_surrogate c).
    + destruct rest as [|d rest']; [discriminate|].
      destruct (is_trailing_surrogate d) eqn:Hd; [|discriminate].
      intros H. apply option_map_Some in H. destruct H as (e' & He & ->).
      right; right. repeat split. exists d, rest', e'. repeat split; assumption.
    + intros H. apply option_map_Some in H.
      right; left. repeat split. exact H.
Qed.

Lemma Encode_app u a b a' b' :
  Encode u a = Some a' ->
  Encode u b = Some b' ->
  Encode u (a ++ b) = Some (a' ++ b').
Proof.
  intros Ha Hb. revert a' Ha.
  induction a as [|c rest IH IH2] using jsstring_pair_ind; intros a' Ha.
  - injection Ha as <-. exact Hb.
  - apply Encode_cons_Some in Ha.
    destruct Ha as [(Hu & e' & He & ->) | [(Hu & Ht & Hl & e' & He & ->)
                   | (Hu & Ht & Hl & d & rest' & e' & -> & Hd & He & ->)]];
      cbn [app Encode]; rewrite Hu; try rewrite Ht; try rewrite Hl.
    + rewrite (IH _ He). reflexivity.
    + rewrite (IH _ He), <- app_assoc. reflexivity.
    + rewrite Hd, (IH2 _ _ eq_refl _ He), <- app_assoc. reflexivity.
Qed.

(** Bit operations of [utf8] and [percent] as arithmetic. *)
Lemma lor_disjoint a x k :
  x < 2 ^ k -> N.land a (N.ones k) = 0 -> N.lor a x = a + x.
Proof.
  intros Hx Ha.
  assert (Hland : N.land a x = 0).
  { rewrite <- (N.mod_small x (2 ^ k) Hx), <- N.land_ones.
    rewrite N.land_assoc, (N.land_comm a x), <- N.land_assoc, Ha.
    apply N.land_0_r. }
  rewrite <- N.lxor_lor by exact Hland.
  symmetry. apply N.add_nocarry_lxor. exact Hland.
Qed.

Lemma shiftr_div cp k : N.shiftr cp k = cp / 2 ^ k.
Proof. apply N.shiftr_div_pow2. Qed.

Lemma land_63 x : N.land x 0x3F = x mod 64.
Proof. change 0x3F with (N.ones 6). apply N.land_ones. Qed.

Lemma percent_arith o :
  percent o = [37; hex_digit (o / 16); hex_digit (o mod 16)].
Proof.
  unfold percent. rewrite shiftr_div.
  change 0xF with (N.ones 4). rewrite N.land_ones. reflexivity.
Qed.

Lemma utf8_arith cp :
  cp < 0x200000 ->
  utf8 cp =
  if cp <? 0x80 then [cp]
  else if cp <? 0x800 then [192 + cp / 64; 128 + cp mod 64]
  else if cp <? 0x10000 then
    [224 + cp / 4096; 128 + (cp / 64) mod 64; 128 + cp mod 64]
  else [240 + cp / 262144; 128 + (cp / 4096) mod 64;
        128 + (cp / 64) mod 64; 128 + cp mod 64].
Proof.
  intros Hmax. unfold utf8. rewrite !land_63, !shiftr_div.
  change (2 ^ 6) with 64. change (2 ^ 12) with 4096. change (2 ^ 18) with 262144.
  assert (Hcont : forall x, N.lor 0x80 (x mod 64) = 128 + x mod 64).
  { intros x. apply (lor_disjoint 0x80 (x mod 64) 6); [|reflexivity].
    apply N.mod_lt. discriminate. }
  rewrite !Hcont.
  destruct (cp <? 0x80) eqn:H1; [reflexivity|].
  destruct (cp <? 0x800) eqn:H2.
  - apply N.ltb_lt in H2.
    rewrite (lor_disjoint 0xC0 (cp / 64) 5); [reflexivity| |reflexivity].
    apply N.Div0.div_lt_upper_bound. exact H2.
  - destruct (cp <? 0x10000) eqn:H3.
    + apply N.ltb_lt in H3.
      rewrite (lor_disjoint 0xE0 (cp / 4096) 4); [reflexivity| |reflexivity].
      apply N.Div0.div_lt_upper_bound. exact H3.
    + rewrite (lor_disjoint 0xF0 (cp / 262144) 3); [reflexivity| |reflexivity].
      apply N.Div0.div_lt_upper_bound. exact Hmax.
Qed.

Lemma utf8_octets cp : cp < 0x200000 -> Forall (fun o => o < 256) (utf8 cp).
Proof.
  intros Hmax. rewrite (utf8_arith cp Hmax).
  pose proof (N.mod_lt cp 64 ltac:(discriminate)) as M0.
  pose proof (N.mod_lt (cp / 64) 64 ltac:(discriminate)) as M1.
  pose proof (N.mod_lt (cp / 4096) 64 ltac:(discriminate)) as M2.
  destruct (cp <? 0x80) eqn:B1; [|destruct (cp <? 0x800) eqn:B2;
                                  [|destruct (cp <? 0x10000) eqn:B3]].
  - apply N.ltb_lt in B1. repeat constructor. lia.
  - apply N.ltb_lt in B2.
    assert (cp / 64 < 32) by (apply N.Div0.div_lt_upper_bound; exact B2).
    repeat constructor; lia.
  - apply N.ltb_lt in B3.
    assert (cp / 4096 < 16) by (apply N.Div0.div_lt_upper_bound; exact B3).
    repeat constructor; lia.
  - assert (cp / 262144 < 8) by (apply N.Div0.div_lt_upper_bound; exact Hmax).
    repeat constructor; lia.
Qed.

Lemma range_unescaped c :
  48 <= c <= 57 \/ 65 <= c <= 90 -> encodeURI_unescaped c = true.
Proof.
  unfold encodeURI_unescaped, uriUnescaped, is_alpha, is_digit, in_range.
  rewrite !orb_true_iff, !andb_true_iff, !N.leb_le. intros H.
  left; right. lia.
Qed.

Lemma hex_digit_unescaped d : d < 16 -> encodeURI_unescaped (hex_digit d) = true.
Proof.
  intros H. apply range_unescaped. unfold hex_digit.
  destruct (d <? 10) eqn:E; [apply N.ltb_lt in E | apply N.ltb_ge in E]; lia.
Qed.

Lemma percent_uri_chars o : o < 256 -> forallb uri_char (percent o) = true.
Proof.
  intros H. rewrite percent_arith. unfold uri_char. cbn [forallb].
  rewrite !hex_digit_unescaped.
  - reflexivity.
  - apply N.mod_lt. discriminate.
  - apply N.Div0.div_lt_upper_bound. exact H.
Qed.

Lemma escape_uri_chars cp : cp < 0x200000 -> forallb uri_char (escape cp) = true.
Proof.
  intros H. unfold escape.
  induction (utf8_octets cp H) as [|o l Ho _ IH]; [reflexivity|].
  cbn [flat_map]. rewrite forallb_app, (percent_uri_chars o Ho), IH. reflexivity.
Qed.

Lemma surrogate_pair_bounds c d :
  is_leading_surrogate c = true -> is_trailing_surrogate d = true ->
  0x10000 <= surrogate_pair_to_code_point c d < 0x110000.
Proof.
  unfold is_leading_surrogate, is_trailing_surrogate, in_range,
    surrogate_pair_to_code_point.
  rewrite !andb_true_iff, !N.leb_le. lia.
Qed.

Lemma Encode_output_chars (s e : jsstring) :
  forallb is_code_unit s = true ->
  encodeURI s = Some e ->
  forallb uri_char e = true.
Proof.
  unfold encodeURI. revert e.
  induction s as [|c rest IH IH2] using jsstring_pair_ind; intros e Hunits He.
  - injection He as <-. reflexivity.
  - cbn [forallb] in Hunits. apply andb_true_iff in Hunits.
    destruct Hunits as [Hc Hrest]. apply N.ltb_lt in Hc.
    apply Encode_cons_Some in He.
    destruct He as [(Hu & e' & He & ->) | [(Hu & Ht & Hl & e' & He & ->)
                   | (Hu & Ht & Hl & d & rest' & e' & -> & Hd & He & ->)]].
    + cbn [forallb]. unfold uri_char at 1. rewrite Hu. cbn [orb andb].
      exact (IH e' Hrest He).
    + rewrite forallb_app, escape_uri_chars by lia.
      exact (IH e' Hrest He).
    + cbn [forallb] in Hrest. apply andb_true_iff in Hrest.
      destruct Hrest as [_ Hrest'].
      pose proof (surrogate_pair_bounds c d Hl Hd).
      rewrite forallb_app, escape_uri_chars by lia.
      exact (IH2 d rest' eq_refl e' Hrest' He).
Qed.

Lemma escape_length cp : (3 <= List.length (escape cp))%nat.
Proof.
  unfold escape, utf8.
  destruct (cp <? 0x80); [|destruct (cp <? 0x800); [|destruct (cp <? 0x10000)]];
    cbn; lia.
Qed.

Lemma Encode_length u (s e : jsstring) :
  Encode u s = Some e -> (List.length s <= List.length e)%nat.
Proof.
  revert e. induction s as [|c rest IH IH2] using jsstring_pair_ind; intros e He.
  - cbn. lia.
  - apply Encode_cons_Some in He.
    destruct He as [(Hu & e' & He & ->) | [(Hu & Ht & Hl & e' & He & ->)
                   | (Hu & Ht & Hl & d & rest' & e' & -> & Hd & He & ->)]].
    + specialize (IH e' He). cbn. lia.
    + specialize (IH e' He). pose proof (escape_length c).
      rewrite length_app. cbn. lia.
    + specialize (IH2 d rest' eq_refl e' He).
      pose proof (escape_length (surrogate_pair_to_code_point c d)).
      rewrite length_app. cbn. lia.
Qed.

Lemma Encode_fixed_point (s : jsstring) :
  encodeURI s = Some s <-> forallb encodeURI_unescaped s = true.
Proof.
  unfold encodeURI. split.
  - induction s as [|c rest IH]; intros He; [reflexivity|].
    pose proof (Encode_length _ _ _ He) as Hlen.
    apply Encode_cons_Some in He.
    destruct He as [(Hu & e' & He & Heq) | [(Hu & Ht & Hl & e' & He & Heq)
                   | (Hu & Ht & Hl & d & rest' & e' & -> & Hd & He & Heq)]].
    + injection Heq as <-. cbn [forallb]. rewrite Hu. exact (IH He).
    + apply (f_equal (@List.length N)) in Heq.
      apply Encode_length in He. pose proof (escape_length c).
      rewrite length_app in Heq. cbn in Heq. lia.
    + apply (f_equal (@List.length N)) in Heq.
      apply Encode_length in He.
      pose proof (escape_length (surrogate_pair_to_code_point c d)).
      rewrite length_app in Heq. cbn in Heq. lia.
  - induction s as [|c rest IH]; intros H; [reflexivity|].
    cbn [forallb] in H. apply andb_true_iff in H. destruct H as [Hc Hrest].
    cbn [Encode]. rewrite Hc, (IH Hrest). reflexivity.
Qed.

Lemma Encode_uri_chars (e : jsstring) :
  forallb uri_char e = true -> encodeURI e = Some (escape_percent e).
Proof.
  unfold encodeURI, escape_percent.
  induction e as [|c e IH]; intros H; [reflexivity|].
  cbn [forallb] in H. apply andb_true_iff in H. destruct H as [Hc He].
  cbn [Encode flat_map]. rewrite (IH He).
  destruct (c =? 37) eqn:E.
  - apply N.eqb_eq in E. subst c. reflexivity.
  - unfold uri_char in Hc. rewrite E, orb_false_r in Hc. rewrite Hc. reflexivity.
Qed.


Lemma utf16_pair c d :
  is_leading_surrogate c = true -> is_trailing_surrogate d = true ->
  utf16 (surrogate_pair_to_code_point c d) = [c; d].
Proof.
  intros Hl Hd. pose proof (surrogate_pair_bounds c d Hl Hd) as Hb.
  unfold utf16. destruct (_ <? 0x10000) eqn:E; [apply N.ltb_lt in E; lia|].
  revert Hl Hd Hb.
  unfold is_leading_surrogate, is_trailing_surrogate, in_range,
    surrogate_pair_to_code_point.
  rewrite !andb_true_iff, !N.leb_le. intros Hl Hd Hb.
  assert (Hq : (c - 0xD800) * 0x400 + (d - 0xDC00) + 0x10000 - 0x10000 =
               0x400 * (c - 0xD800) + (d - 0xDC00)) by lia.
  rewrite Hq.
  rewrite <- (N.div_unique _ 0x400 (c - 0xD800) (d - 0xDC00)) by lia.
  rewrite <- (N.mod_unique _ 0x400 (c - 0xD800) (d - 0xDC00)) by lia.
  f_equal; [|f_equal]; lia.
Qed.

Lemma Encode_ill_formed (s : jsstring) :
  forallb is_code_unit s = true ->
  encodeURI s = None <->
  ~ exists t, forallb is_scalar t = true /\ s = to_jsstring t.
Proof.
  intros Hunits. split.
  - intros Hnone (t & Ht & ->).
    rewrite (encodeURI_to_jsstring t Ht) in Hnone. discriminate Hnone.
  - intros Hill. destruct (encodeURI s) as [e|] eqn:He; [|reflexivity].
    exfalso. apply Hill. clear Hill. unfold encodeURI in He. revert e He.
    induction s as [|c rest IH IH2] using jsstring_pair_ind; intros e He.
    + exists []. split; reflexivity.
    + cbn [forallb] in Hunits. apply andb_true_iff in Hunits.
      destruct Hunits as [Hc Hrest]. apply N.ltb_lt in Hc.
      apply Encode_cons_Some in He.
      destruct He as [(Hu & e' & He & ->) | [(Hu & Ht & Hl & e' & He & ->)
                     | (Hu & Ht & Hl & d & rest' & e' & -> & Hd & He & ->)]].
      * destruct (IH Hrest e' He) as (t & Ht & ->).
        apply unescaped_ascii in Hu.
        exists (c :: t). cbn [forallb to_jsstring flat_map]. split.
        -- rewrite Ht, andb_true_r. unfold is_scalar, in_range.
           rewrite andb_true_iff, negb_true_iff, andb_false_iff, N.ltb_lt,
             !N.leb_gt. lia.
        -- unfold utf16. destruct (c <? 0x10000) eqn:E; [reflexivity|].
           apply N.ltb_ge in E. lia.
      * destruct (IH Hrest e' He) as (t & Hscalar & ->).
        exists (c :: t). cbn [forallb to_jsstring flat_map]. split.
        -- rewrite Hscalar, andb_true_r. revert Ht Hl.
           unfold is_scalar, is_trailing_surrogate, is_leading_surrogate, in_range.
           rewrite andb_true_iff, negb_true_iff, !andb_false_iff, N.ltb_lt,
             !N.leb_gt. lia.
        -- unfold utf16. destruct (c <? 0x10000) eqn:E; [reflexivity|].
           apply N.ltb_ge in E. lia.
      * cbn [forallb] in Hrest. apply andb_true_iff in Hrest.
        destruct Hrest as [_ Hrest'].
        destruct (IH2 d rest' eq_refl Hrest' e' He) as (t & Hscalar & ->).
        pose proof (surrogate_pair_bounds c d Hl Hd) as Hb.
        exists (surrogate_pair_to_code_point c d :: t).
        cbn [forallb to_jsstring flat_map]. split.
        -- rewrite Hscalar, andb_true_r. unfold is_scalar, in_range.
           rewrite andb_true_iff, negb_true_iff, andb_false_iff, N.ltb_lt,
             !N.leb_gt. lia.
        -- rewrite (utf16_pair c d Hl Hd). reflexivity.
Qed.

Lemma hex_digit_inj d1 d2 :
  d1 < 16 -> d2 < 16 -> hex_digit d1 = hex_digit d2 -> d1 = d2.
Proof.
  unfold hex_digit. intros H1 H2.
  destruct (d1 <? 10) eqn:E1; [apply N.ltb_lt in E1 | apply N.ltb_ge in E1];
    (destruct (d2 <? 10) eqn:E2; [apply N.ltb_lt in E2 | apply N.ltb_ge in E2]);
    lia.
Qed.

Lemma percent_app_inj o1 o2 (r1 r2 : jsstring) :
  o1 < 256 -> o2 < 256 ->
  percent o1 ++ r1 = percent o2 ++ r2 -> o1 = o2 /\ r1 = r2.
Proof.
  intros H1 H2. rewrite !percent_arith. cbn [app]. intros H.
  injection H as Hhigh Hlow Hr.
  apply hex_digit_inj in Hhigh;
    [|apply N.Div0.div_lt_upper_bound; assumption ..].
  apply hex_digit_inj in Hlow; [|apply N.mod_lt; discriminate ..].
  split; [|exact Hr].
  rewrite (N.div_mod o1 16), (N.div_mod o2 16) by discriminate.
  rewrite Hhigh, Hlow. reflexivity.
Qed.

(** The base-64 digits of a code point, from which [utf8] builds its octets. *)
Lemma utf8_digits cp :
  cp < 0x200000 ->
  exists a b c m0 m1 m2,
    cp = 64 * a + m0 /\ a = 64 * b + m1 /\ b = 64 * c + m2 /\
    m0 < 64 /\ m1 < 64 /\ m2 < 64 /\ c < 8 /\
    utf8 cp =
    if cp <? 0x80 then [cp]
    else if cp <? 0x800 then [192 + a; 128 + m0]
    else if cp <? 0x10000 then [224 + b; 128 + m1; 128 + m0]
    else [240 + c; 128 + m2; 128 + m1; 128 + m0].
Proof.
  intros Hmax.
  exists (cp / 64), (cp / 4096), (cp / 262144),
    (cp mod 64), ((cp / 64) mod 64), ((cp / 4096) mod 64).
  assert (H4096 : cp / 4096 = cp / 64 / 64)
    by (rewrite N.Div0.div_div; reflexivity).
  assert (H262144 : cp / 262144 = cp / 4096 / 64)
    by (rewrite H4096, !N.Div0.div_div; reflexivity).
  repeat split.
  - apply N.div_mod. discriminate.
  - rewrite H4096. apply N.div_mod. discriminate.
  - rewrite H262144. apply N.div_mod. discriminate.
  - apply N.mod_lt. discriminate.
  - apply N.mod_lt. discriminate.
  - apply N.mod_lt. discriminate.
  - apply N.Div0.div_lt_upper_bound. exact Hmax.
  - apply utf8_arith. exact Hmax.
Qed.

(** The escapes of a code point can be read back from the front of a
    string. *)
Lemma escape_app_inj cp1 cp2 (r1 r2 : jsstring) :
  cp1 < 0x200000 -> cp2 < 0x200000 ->
  escape cp1 ++ r1 = escape cp2 ++ r2 -> cp1 = cp2 /\ r1 = r2.
Proof.
  intros H1 H2.
  pose proof (utf8_octets cp1 H1) as O1. pose proof (utf8_octets cp2 H2) as O2.
  destruct (utf8_digits cp1 H1)
    as (a1 & b1 & c1 & m1 & n1 & p1 & Ea1 & Eb1 & Ec1 & Hm1 & Hn1 & Hp1 & Hc1 & U1).
  destruct (utf8_digits cp2 H2)
    as (a2 & b2 & c2 & m2 & n2 & p2 & Ea2 & Eb2 & Ec2 & Hm2 & Hn2 & Hp2 & Hc2 & U2).
  unfold escape. rewrite U1, U2 in *.
  destruct (cp1 <? 0x80) eqn:X1;
    [|destruct (cp1 <? 0x800) eqn:Y1; [|destruct (cp1 <? 0x10000) eqn:Z1]];
    (destruct (cp2 <? 0x80) eqn:X2;
     [|destruct (cp2 <? 0x800) eqn:Y2; [|destruct (cp2 <? 0x10000) eqn:Z2]]);
    rewrite ?N.ltb_lt, ?N.ltb_ge in *;
    cbn [flat_map]; rewrite ?app_nil_r, <- ?app_assoc; intros H;
    repeat match goal with
           | O : Forall _ (_ :: _) |- _ => inversion O; subst; clear O
           end;
    repeat match goal with
           | E : percent _ ++ _ = percent _ ++ _ |- _ =>
               apply percent_app_inj in E; [destruct E as [? E] | assumption ..]
           end;
    try lia;
    (split; [lia | assumption]).
Qed.

Lemma escape_head cp : exists tail, escape cp = 37 :: tail.
Proof.
  unfold escape, utf8.
  destruct (cp <? 0x80); [|destruct (cp <? 0x800); [|destruct (cp <? 0x10000)]];
    cbn [flat_map percent app]; eexists; reflexivity.
Qed.

Lemma surrogate_pair_inj c1 d1 c2 d2 :
  is_leading_surrogate c1 = true -> is_trailing_surrogate d1 = true ->
  is_leading_surrogate c2 = true -> is_trailing_surrogate d2 = true ->
  surrogate_pair_to_code_point c1 d1 = surrogate_pair_to_code_point c2 d2 ->
  c1 = c2 /\ d1 = d2.
Proof.
  unfold is_leading_surrogate, is_trailing_surrogate, in_range,
    surrogate_pair_to_code_point.
  rewrite !andb_true_iff, !N.leb_le. lia.
Qed.

Lemma Encode_injective (s1 s2 e : jsstring) :
  forallb is_code_unit s1 = true ->
  forallb is_code_unit s2 = true ->
  encodeURI s1 = Some e ->
  encodeURI s2 = Some e ->
  s1 = s2.
Proof.
  unfold encodeURI. revert s2 e.
  induction s1 as [|c1 rest1 IH IH2] using jsstring_pair_ind;
    intros s2 e Hunits1 Hunits2 He1 He2.
  - injection He1 as <-. apply Encode_length in He2.
    destruct s2; [reflexivity | cbn in He2; lia].
  - destruct s2 as [|c2 rest2].
    { injection He2 as <-. apply Encode_length in He1. cbn in He1. lia. }
    cbn [forallb] in Hunits1, Hunits2.
    apply andb_true_iff in Hunits1, Hunits2.
    destruct Hunits1 as [Hc1 Hrest1]. destruct Hunits2 as [Hc2 Hrest2].
    apply N.ltb_lt in Hc1, Hc2.
    apply Encode_cons_Some in He1, He2.
    destruct He1 as [(Hu1 & e1 & He1 & ->) | [(Hu1 & Ht1 & Hl1 & e1 & He1 & ->)
                    | (Hu1 & Ht1 & Hl1 & d1 & rest1' & e1 & -> & Hd1 & He1 & ->)]];
      destruct He2 as [(Hu2 & e2 & He2 & Heq) | [(Hu2 & Ht2 & Hl2 & e2 & He2 & Heq)
                      | (Hu2 & Ht2 & Hl2 & d2 & rest2' & e2 & -> & Hd2 & He2 & Heq)]].
    + injection Heq as -> ->. f_equal. exact (IH rest2 e2 Hrest1 Hrest2 He1 He2).
    + destruct (escape_head c2) as (tail & Htail). rewrite Htail in Heq.
      injection Heq as -> _. discriminate Hu1.
    + destruct (escape_head (surrogate_pair_to_code_point c2 d2)) as (tail & Htail).
      rewrite Htail in Heq. injection Heq as -> _. discriminate Hu1.
    + destruct (escape_head c1) as (tail & Htail). rewrite Htail in Heq.
      injection Heq as <- _. discriminate Hu2.
    + apply escape_app_inj in Heq; [|lia ..]. destruct Heq as [-> ->].
      f_equal. exact (IH rest2 e2 Hrest1 Hrest2 He1 He2).
    + pose proof (surrogate_pair_bounds c2 d2 Hl2 Hd2).
      apply escape_app_inj in Heq; [|lia ..]. lia.
    + destruct (escape_head (surrogate_pair_to_code_point c1 d1)) as (tail & Htail).
      rewrite Htail in Heq. injection Heq as <- _. discriminate Hu2.
    + pose proof (surrogate_pair_bounds c1 d1 Hl1 Hd1).
      apply escape_app_inj in Heq; [|lia ..]. lia.
    + pose proof (surrogate_pair_bounds c1 d1 Hl1 Hd1).
      pose proof (surrogate_pair_bounds c2 d2 Hl2 Hd2).
      apply escape_app_inj in Heq; [|lia ..]. destruct Heq as [Hcp ->].
      apply surrogate_pair_inj in Hcp; try assumption. destruct Hcp as [-> ->].
      cbn [forallb] in Hrest1, Hrest2. apply andb_true_iff in Hrest1, Hrest2.
      f_equal. f_equal.
      exact (IH2 d2 rest1' eq_refl rest2' e2 (proj2 Hrest1) (proj2 Hrest2) He1 He2).
Qed.

(** X9. Encoding composes: when two strings can be encoded, so can their
    concatenation, and its encoding is the concatenation of theirs. *)
Theorem encodeURI_app (a b a' b' : jsstring) :
  encodeURI a = Some a' ->
  encodeURI b = Some b' ->
  encodeURI (a ++ b) = Some (a' ++ b').
Proof.
  apply Encode_app.
Qed.

Lemma uri_char_printable c : uri_char c = true -> in_range 33 126 c = true.
Proof.
  unfold uri_char, encodeURI_unescaped, uriUnescaped, is_alpha, is_digit,
    in_range, mem.
  cbn.
  rewrite ?orb_true_iff, ?andb_true_iff, ?N.eqb_eq, ?N.leb_le.
  lia.
Qed.

(** X10. Whatever string of code units is encoded, the result consists of
    the characters [encodeURI] leaves alone and of percent signs only; in
    particular it is printable ASCII, with no space and no control
    character. *)
Theorem encodeURI_output_uri_chars (s e : jsstring) :
  forallb is_code_unit s = true ->
  encodeURI s = Some e ->
  forallb uri_char e = true /\ forallb (in_range 33 126) e = true.
Proof.
  intros Hunits He.
  pose proof (Encode_output_chars s e Hunits He) as Hchars.
  split; [exact Hchars|].
  apply forallb_forall. intros c Hc. apply uri_char_printable.
  exact (proj1 (forallb_forall uri_char e) Hchars c Hc).
Qed.

(** X11. [encodeURI] returns its argument unchanged exactly when every code
    unit of it is one that needs no escape: a letter, a digit, a mark, a
    reserved character or the number sign. *)
Theorem encodeURI_unchanged_iff (s : jsstring) :
  encodeURI s = Some s <-> forallb encodeURI_unescaped s = true.
Proof.
  apply Encode_fixed_point.
Qed.

(** X12. Encoding is not idempotent: applied to its own result, [encodeURI]
    escapes every percent sign once more as [%25] and changes nothing else. *)
Theorem encodeURI_twice (s e : jsstring) :
  forallb is_code_unit s = true ->
  encodeURI s = Some e ->
  encodeURI e = Some (escape_percent e).
Proof.
  intros Hunits He. apply Encode_uri_chars.
  exact (Encode_output_chars s e Hunits He).
Qed.

(** X13. On a string of code units [encodeURI] raises its URIError exactly
    when the string is not well-formed UTF-16, that is, not the UTF-16 form of
    a sequence of Unicode characters. *)
Theorem encodeURI_fails_iff_ill_formed (s : jsstring) :
  forallb is_code_unit s = true ->
  encodeURI s = None <->
  ~ exists t, forallb is_scalar t = true /\ s = to_jsstring t.
Proof.
  apply Encode_ill_formed.
Qed.

(** X14. [encodeURI] loses nothing: two strings of code units with the same
    encoding are the same string. *)
Theorem encodeURI_injective (s1 s2 e : jsstring) :
  forallb is_code_unit s1 = true ->
  forallb is_code_unit s2 = true ->
  encodeURI s1 = Some e ->
  encodeURI s2 = Some e ->
  s1 = s2.
Proof.
  apply Encode_injective.
Qed.

End EncodeURI.

(** ** The query handler and the encoding of [q] *)

Section QueryEncoding.

Variable sfdc : Upstream.
Variable request : Request.

Local Abbreviation q := (query_param (js "q") (req_query request)).
Local Abbreviation auth := (sfdcAuth (req_session request)).

Lemma query_forwards_encoded (text encoded : jsstring) :
  authenticated request = true ->
  qs_truthy q = true ->
  qs_to_string q = Some text ->
  encodeURI text = Some encoded ->
  calls (final (query sfdc request)) =
    [HttpGet (createDataRequest sfdc auth (js "query?q=" ++ encoded))].
Proof.
  intros Hauth Hq Htext Henc.
  unfold query. rewrite (getSession_authenticated request _ Hauth), Hq.
  cbn [negb]. rewrite Htext, Henc.
  destruct (http_get _ _) as [error payload].
  destruct (truthy error); [reflexivity|].
  destruct (get_prop payload _); reflexivity.
Qed.

(** X15. When the text of [q] is not well-formed UTF-16, the query handler
    raises the URIError of [encodeURI] right after the session and parameter
    checks: it has made no upstream call and sent no response. *)
Theorem query_raises_on_ill_formed_q (text : jsstring) :
  authenticated request = true ->
  qs_truthy q = true ->
  qs_to_string q = Some text ->
  forallb is_code_unit text = true ->
  (~ exists t, forallb is_scalar t = true /\ text = to_jsstring t) ->
  query sfdc request = Threw URIError (start request).
Proof.
  intros Hauth Hq Htext Hunits Hill.
  apply (Encode_ill_formed _ Hunits) in Hill.
  unfold query. rewrite (getSession_authenticated request _ Hauth), Hq.
  cbn [negb]. rewrite Htext, Hill. reflexivity.
Qed.

(** X16. A query string made only of characters that [encodeURI] leaves
    alone, among them the delimiters [&], [=], [+] and [#], is forwarded
    exactly as the client sent it. *)
Theorem query_forwards_unescaped_verbatim (s : jsstring) :
  authenticated request = true ->
  q = QStr s ->
  s <> [] ->
  forallb encodeURI_unescaped s = true ->
  calls (final (query sfdc request)) =
    [HttpGet (createDataRequest sfdc auth (js "query?q=" ++ s))].
Proof.
  intros Hauth Hq Hne Hs.
  apply (query_forwards_encoded s); [exact Hauth | | |]; rewrite ?Hq.
  - destruct s; [congruence | reflexivity].
  - reflexivity.
  - apply Encode_fixed_point. exact Hs.
Qed.

Lemma qs_to_string_strings (ss : list jsstring) :
  qs_to_string (QArr (map QStr ss)) = Some (join_comma ss).
Proof.
  cbn [qs_to_string].
  induction ss as [|x [|y rest] IH]; [reflexivity | reflexivity |].
  cbn [map join_comma] in *. rewrite IH. reflexivity.
Qed.

Lemma encodeURI_join_comma (ss es : list jsstring) :
  Forall2 (fun s e => encodeURI s = Some e) ss es ->
  encodeURI (join_comma ss) = Some (join_comma es).
Proof.
  unfold encodeURI.
  induction 1 as [|s e ss es Hs Hrest IH]; [reflexivity|].
  destruct Hrest as [|s' e' ss' es' Hs' Hrest'].
  - exact Hs.
  - cbn [join_comma] in *.
    apply Encode_app; [exact Hs|].
    apply (Encode_app _ [44%N] _ [44%N]); [reflexivity | exact IH].
Qed.

(** X17. A repeated [q] parameter, which reaches the handler as an array of
    strings, is not rejected: the strings are encoded one by one and forwarded
    joined by commas. *)
Theorem query_forwards_repeated_q (ss es : list jsstring) :
  authenticated request = true ->
  q = QArr (map QStr ss) ->
  Forall2 (fun s e => encodeURI s = Some e) ss es ->
  calls (final (query sfdc request)) =
    [HttpGet (createDataRequest sfdc auth (js "query?q=" ++ join_comma es))].
Proof.
  intros Hauth Hq Hss.
  apply (query_forwards_encoded (join_comma ss)); [exact Hauth | | |]; rewrite ?Hq.
  - reflexivity.
  - apply qs_to_string_strings.
  - apply encodeURI_join_comma. exact Hss.
Qed.

(** X18. Every request the query handler forwards is for a resource that
    starts with [query?q=] and consists of URI characters and percent signs
    only, whatever the client put in [q]. *)
Theorem query_forwards_uri_chars_only options :
  (forall text, qs_to_string q = Some text -> forallb is_code_unit text = true) ->
  In (HttpGet options) (calls (final (query sfdc request))) ->
  exists encoded,
    options = createDataRequest sfdc auth (js "query?q=" ++ encoded) /\
    forallb uri_char (js "query?q=" ++ encoded) = true.
Proof.
  intros Hunits. unfold query, getSession.
  destruct (is_undefined _); [intros []|].
  destruct (negb _); [intros []|].
  destruct (qs_to_string _) as [text|]; [|intros []].
  specialize (Hunits text eq_refl).
  destruct (encodeURI _) as [encoded|] eqn:Henc; [|intros []].
  intros Hin. exists encoded. split.
  - destruct (http_get _ _) as [error payload].
    destruct (truthy error); [|destruct (get_prop payload _)];
      cbn in Hin; destruct Hin as [H | []]; injection H as <-; reflexivity.
  - rewrite forallb_app, (Encode_output_chars _ _ Hunits Henc).
    reflexivity.
Qed.

(** X19. When the text of [q] could be encoded and the HTTP client then
    reports neither an error nor a response object, the query handler raises a
    TypeError while reading the body: the upstream call has been made and no
    response is sent. *)
Theorem query_raises_without_response_object (error payload : jsval)
        (text resource : jsstring) :
  authenticated request = true ->
  qs_truthy q = true ->
  qs_to_string q = Some text ->
  encodeURI text = Some resource ->
  http_get sfdc (createDataRequest sfdc auth (js "query?q=" ++ resource)) =
    (error, payload) ->
  truthy error = false ->
  payload = JUndefined \/ payload = JNull ->
  exists c, query sfdc request = Threw TypeError c /\
            sent c = None /\
            calls c = [HttpGet (createDataRequest sfdc auth (js "query?q=" ++ resource))].
Proof.
  intros Hauth Hq Htext Henc Hget Herr Hpayload.
  unfold query. rewrite (getSession_authenticated request _ Hauth), Hq.
  cbn [negb]. rewrite Htext, Henc, Hget, Herr.
  destruct Hpayload as [-> | ->]; eexists; repeat split.
Qed.

(** X27. When [q] is an object that carries a property of its own named
    [toString], as in [q[toString]=x], the conversion of [q] to a string
    raises a TypeError right after the session and parameter checks: the query
    handler has made no upstream call and sent no response. *)
Theorem query_raises_on_shadowed_toString fields v :
  authenticated request = true ->
  q = QObj fields ->
  lookup (js "toString") fields = Some v ->
  query sfdc request = Threw TypeError (start request).
Proof.
  intros Hauth Hq Hown.
  unfold query. rewrite (getSession_authenticated request _ Hauth), Hq.
  cbn [qs_truthy negb qs_to_string]. rewrite Hown. reflexivity.
Qed.

End QueryEncoding.

(** ** The session across requests *)

Section Lifecycle.

Variable sfdc : Upstream.
Variable request : Request.

(** X20. The callback does not look at the session: two requests with the
    same query string get the same response, cause the same upstream call and
    the same console output, whether or not a credential is already stored. *)
Theorem callback_ignores_session other :
  req_query other = req_query request ->
  response (final (auth_callback sfdc other)) =
    response (final (auth_callback sfdc request)) /\
  calls (final (auth_callback sfdc other)) =
    calls (final (auth_callback sfdc request)) /\
  console (final (auth_callback sfdc other)) =
    console (final (auth_callback sfdc request)).
Proof.
  intros Hq. unfold auth_callback. rewrite Hq.
  destruct (negb _); [repeat split|].
  destruct (authenticate _ _) as [error payload].
  destruct (truthy error); repeat split.
Qed.

(** X21. The callback asks the authorization server exactly when the [code]
    parameter is truthy, and then with that very value; an empty [code] is
    treated like a missing one. *)
Theorem callback_calls_iff_code :
  calls (final (auth_callback sfdc request)) =
    (if qs_truthy (query_param (js "code") (req_query request))
     then [Authenticate (query_param (js "code") (req_query request))]
     else []) /\
  (absent_or_empty (query_param (js "code") (req_query request)) ->
   response (final (auth_callback sfdc request)) =
     Some (500%Z, Send (JStr (js "Failed to get authorization code from server callback.")))).
Proof.
  unfold auth_callback. split.
  - destruct (qs_truthy _); [|reflexivity]. cbn [negb].
    destruct (authenticate _ _) as [error payload].
    destruct (truthy error); reflexivity.
  - intros H. apply absent_or_empty_falsy in H. rewrite H. reflexivity.
Qed.

(** X22. After a callback whose exchange succeeded, a request that carries
    the resulting session is served with the stored payload: whoami asks the
    identity API with exactly that payload.  When the exchange reported
    success with an [undefined] payload the session is still anonymous, and
    whoami answers 401. *)
Theorem callback_then_whoami error payload next :
  qs_truthy (query_param (js "code") (req_query request)) = true ->
  authenticate sfdc (query_param (js "code") (req_query request)) = (error, payload) ->
  truthy error = false ->
  session (final (auth_callback sfdc request)) = Some (req_session next) ->
  if is_undefined payload
  then response (final (auth_whoami sfdc next)) =
         Some (401%Z, Send (JStr (js "No active session")))
  else calls (final (auth_whoami sfdc next)) = [GetLoggedUser payload].
Proof.
  intros Hcode Hauth Herr. unfold auth_callback.
  rewrite Hcode. cbn [negb]. rewrite Hauth, Herr. cbn.
  intros H. injection H as H.
  unfold auth_whoami, getSession. rewrite <- H. cbn [sfdcAuth].
  destruct (is_undefined payload); [reflexivity|].
  destruct (getLoggedUser _ _) as [e userData].
  destruct (truthy e); reflexivity.
Qed.

(** X23. Only logout detaches the session from the request, and only after
    a revocation that succeeded; login, callback, whoami and query always
    leave a session attached. *)
Theorem session_destroyed_only_by_logout :
  session (final (auth_login sfdc request)) <> None /\
  session (final (auth_callback sfdc request)) <> None /\
  session (final (auth_whoami sfdc request)) <> None /\
  session (final (query sfdc request)) <> None /\
  (session (final (auth_logout sfdc request)) = None <->
   authenticated request = true /\
   exists token,
     get_prop (sfdcAuth (req_session request)) (js "access_token") = Some token /\
     truthy (revoke sfdc token) = false).
Proof.
  repeat split.
  - discriminate.
  - unfold auth_callback. destruct (negb _); [discriminate|].
    destruct (authenticate _ _) as [error payload].
    destruct (truthy error); discriminate.
  - unfold auth_whoami, getSession. destruct (is_undefined _); [discriminate|].
    destruct (getLoggedUser _ _) as [error userData].
    destruct (truthy error); discriminate.
  - unfold query, getSession. destruct (is_undefined _); [discriminate|].
    destruct (negb _); [discriminate|].
    destruct (qs_to_string _) as [text|]; [|discriminate].
    destruct (encodeURI _); [|discriminate].
    destruct (http_get _ _) as [error payload].
    destruct (truthy error); [discriminate|].
    destruct (get_prop payload _); discriminate.
  - revert H. unfold authenticated, auth_logout, getSession.
    destruct (is_undefined _); [discriminate | reflexivity].
  - revert H. unfold auth_logout, getSession.
    destruct (is_undefined _); [discriminate|].
    destruct (get_prop _ _) as [token|]; [|discriminate].
    destruct (truthy (revoke sfdc token)) eqn:Hrevoke; [discriminate|].
    intros _. exists token. split; [reflexivity | exact Hrevoke].
  - intros (Hauth & token & Htoken & Hrevoke).
    unfold auth_logout.
    rewrite (getSession_authenticated request _ Hauth), Htoken, Hrevoke.
    destruct (truthy (store_destroy sfdc)); reflexivity.
Qed.

(** X24. After a callback whose exchange succeeded, logout on the resulting
    session asks the upstream to revoke the access token of the payload the
    exchange returned. *)
Theorem callback_then_logout error payload token next :
  qs_truthy (query_param (js "code") (req_query request)) = true ->
  authenticate sfdc (query_param (js "code") (req_query request)) = (error, payload) ->
  truthy error = false ->
  get_prop payload (js "access_token") = Some token ->
  session (final (auth_callback sfdc request)) = Some (req_session next) ->
  calls (final (auth_logout sfdc next)) = [Revoke token].
Proof.
  intros Hcode Hauth Herr Htoken. unfold auth_callback.
  rewrite Hcode. cbn [negb]. rewrite Hauth, Herr. cbn.
  intros H. injection H as H.
  unfold auth_logout, getSession. rewrite <- H. cbn [sfdcAuth].
  assert (Hdefined : is_undefined payload = false)
    by (destruct payload; try reflexivity; discriminate Htoken).
  rewrite Hdefined. cbn [sfdcAuth]. rewrite Htoken.
  destruct (truthy (revoke sfdc token));
    [|destruct (truthy (store_destroy sfdc))]; reflexivity.
Qed.

End Lifecycle.

(** ** The further properties at concrete requests *)

(** Whoami on a logged-in session, against an upstream that answers. *)
Lemma whoami_passes_upstream_answer_witness :
  authenticated (plain logged_in) = true /\
  getLoggedUser healthy (sfdcAuth (req_session (plain logged_in))) = (JNull, user_data) /\
  calls (final (auth_whoami healthy (plain logged_in))) = [GetLoggedUser oauth_payload] /\
  response (final (auth_whoami healthy (plain logged_in))) = Some (200%Z, Send user_data).
Proof.
  split; [reflexivity|]. split; [reflexivity|].
  apply (whoami_passes_upstream_answer healthy (plain logged_in) JNull user_data);
    reflexivity.
Defined.

(** Logout on a session whose credential is [null]. *)
Lemma logout_null_credential_raises_witness :
  sfdcAuth (req_session (plain null_session)) = JNull /\
  authenticated (plain null_session) = true /\
  auth_logout healthy (plain null_session) = Threw TypeError (start (plain null_session)).
Proof.
  split; [reflexivity|].
  apply (logout_null_credential_raises healthy (plain null_session)). reflexivity.
Defined.

(** Two halves of a query, encoded apart and together. *)
Lemma encodeURI_app_witness :
  encodeURI (js "SELECT Id ") = Some (js "SELECT%20Id%20") /\
  encodeURI (js "FROM X") = Some (js "FROM%20X") /\
  encodeURI (js "SELECT Id " ++ js "FROM X") =
    Some (js "SELECT%20Id%20" ++ js "FROM%20X").
Proof.
  split; [reflexivity|]. split; [reflexivity|].
  apply (encodeURI_app (js "SELECT Id ") (js "FROM X")); reflexivity.
Defined.

(** The encoding of a query with a space and an accented letter. *)
Lemma encodeURI_output_uri_chars_witness :
  forallb is_code_unit (js "Id " ++ [233%N]) = true /\
  encodeURI (js "Id " ++ [233%N]) = Some (js "Id%20%C3%A9") /\
  forallb uri_char (js "Id%20%C3%A9") = true /\
  forallb (in_range 33 126) (js "Id%20%C3%A9") = true.
Proof.
  split; [reflexivity|]. split; [reflexivity|].
  apply (encodeURI_output_uri_chars (js "Id " ++ [233%N])); reflexivity.
Defined.

(** A space encoded twice. *)
Lemma encodeURI_twice_witness :
  forallb is_code_unit (js "a b") = true /\
  encodeURI (js "a b") = Some (js "a%20b") /\
  encodeURI (js "a%20b") = Some (js "a%2520b").
Proof.
  split; [reflexivity|]. split; [reflexivity|].
  apply (encodeURI_twice (js "a b")); reflexivity.
Defined.

(** A string that ends in the first half of a surrogate pair. *)
Lemma encodeURI_fails_iff_ill_formed_witness :
  forallb is_code_unit cut_string = true /\
  ~ exists t, forallb is_scalar t = true /\ cut_string = to_jsstring t.
Proof.
  split; [reflexivity|].
  apply (encodeURI_fails_iff_ill_formed cut_string); reflexivity.
Defined.

(** The same encoding, hence the same string. *)
Lemma encodeURI_injective_witness :
  forallb is_code_unit soql = true /\
  encodeURI soql = Some (js "SELECT%20Id%20FROM%20X") /\
  encodeURI (js "SELECT Id " ++ js "FROM X") = Some (js "SELECT%20Id%20FROM%20X") /\
  soql = js "SELECT Id " ++ js "FROM X".
Proof.
  split; [reflexivity|]. split; [reflexivity|]. split; [reflexivity|].
  apply (encodeURI_injective soql (js "SELECT Id " ++ js "FROM X")
           (js "SELECT%20Id%20FROM%20X"));
    reflexivity.
Defined.

(** A query whose text was cut inside a surrogate pair. *)
Lemma query_raises_on_ill_formed_q_witness :
  authenticated (with_q cut_string logged_in) = true /\
  qs_truthy (query_param (js "q") (req_query (with_q cut_string logged_in))) = true /\
  qs_to_string (query_param (js "q") (req_query (with_q cut_string logged_in))) =
    Some cut_string /\
  forallb is_code_unit cut_string = true /\
  query healthy (with_q cut_string logged_in) =
    Threw URIError (start (with_q cut_string logged_in)).
Proof.
  split; [reflexivity|]. split; [reflexivity|]. split; [reflexivity|].
  split; [reflexivity|].
  apply (query_raises_on_ill_formed_q healthy (with_q cut_string logged_in) cut_string);
    try reflexivity.
  apply (Encode_ill_formed cut_string); reflexivity.
Defined.

(** A query made of reserved characters only. *)
Lemma query_forwards_unescaped_verbatim_witness :
  authenticated (with_q reserved_only logged_in) = true /\
  reserved_only <> [] /\
  forallb encodeURI_unescaped reserved_only = true /\
  calls (final (query healthy (with_q reserved_only logged_in))) =
    [HttpGet (createDataRequest healthy oauth_payload (js "query?q=a=1&b=2#c"))].
Proof.
  assert (Hne : reserved_only <> []) by discriminate.
  split; [reflexivity|]. split; [exact Hne|]. split; [reflexivity|].
  apply (query_forwards_unescaped_verbatim healthy (with_q reserved_only logged_in)
           reserved_only);
    solve [reflexivity | exact Hne].
Defined.

(** A request with [q] given twice. *)
Lemma query_forwards_repeated_q_witness :
  authenticated (with_param (js "q") repeated_q logged_in) = true /\
  Forall2 (fun s e => encodeURI s = Some e)
          [js "Id"; js "Name of X"] [js "Id"; js "Name%20of%20X"] /\
  calls (final (query healthy (with_param (js "q") repeated_q logged_in))) =
    [HttpGet (createDataRequest healthy oauth_payload
                (js "query?q=Id,Name%20of%20X"))].
Proof.
  assert (Henc : Forall2 (fun s e => encodeURI s = Some e)
                         [js "Id"; js "Name of X"] [js "Id"; js "Name%20of%20X"])
    by (repeat constructor).
  split; [reflexivity|]. split; [exact Henc|].
  apply (query_forwards_repeated_q healthy (with_param (js "q") repeated_q logged_in)
           [js "Id"; js "Name of X"] [js "Id"; js "Name%20of%20X"]);
    solve [reflexivity | exact Henc].
Defined.

(** The request forwarded for a SOQL query. *)
Lemma query_forwards_uri_chars_only_witness :
  (forall text,
      qs_to_string (query_param (js "q") (req_query (with_q soql logged_in))) = Some text ->
      forallb is_code_unit text = true) /\
  In (HttpGet (createDataRequest healthy oauth_payload (js "query?q=SELECT%20Id%20FROM%20X")))
     (calls (final (query healthy (with_q soql logged_in)))) /\
  exists encoded,
    createDataRequest healthy oauth_payload (js "query?q=SELECT%20Id%20FROM%20X") =
    createDataRequest healthy (sfdcAuth (req_session (with_q soql logged_in)))
                      (js "query?q=" ++ encoded) /\
    forallb uri_char (js "query?q=" ++ encoded) = true.
Proof.
  assert (Hin : In (HttpGet (createDataRequest healthy oauth_payload
                               (js "query?q=SELECT%20Id%20FROM%20X")))
                   (calls (final (query healthy (with_q soql logged_in)))))
    by (left; reflexivity).
  assert (Hunits : forall text,
             qs_to_string (query_param (js "q") (req_query (with_q soql logged_in)))
             = Some text ->
             forallb is_code_unit text = true)
    by (intros text H; injection H as <-; reflexivity).
  split; [exact Hunits|]. split; [exact Hin|].
  apply (query_forwards_uri_chars_only healthy (with_q soql logged_in));
    [exact Hunits | exact Hin].
Defined.

(** A query against an upstream that reports nothing at all. *)
Lemma query_raises_without_response_object_witness :
  authenticated (with_q soql logged_in) = true /\
  qs_to_string (query_param (js "q") (req_query (with_q soql logged_in))) = Some soql /\
  encodeURI soql = Some (js "SELECT%20Id%20FROM%20X") /\
  http_get mute (createDataRequest mute oauth_payload
                   (js "query?q=" ++ js "SELECT%20Id%20FROM%20X")) =
    (JNull, JUndefined) /\
  exists c, query mute (with_q soql logged_in) = Threw TypeError c /\
            sent c = None /\
            calls c = [HttpGet (createDataRequest mute
                                  (sfdcAuth (req_session (with_q soql logged_in)))
                                  (js "query?q=" ++ js "SELECT%20Id%20FROM%20X"))].
Proof.
  split; [reflexivity|]. split; [reflexivity|]. split; [reflexivity|].
  split; [reflexivity|].
  apply (query_raises_without_response_object mute (with_q soql logged_in)
           JNull JUndefined soql (js "SELECT%20Id%20FROM%20X"));
    solve [reflexivity | left; reflexivity].
Defined.

(** The request [q[toString]=x]. *)
Lemma query_raises_on_shadowed_toString_witness :
  authenticated (with_param (js "q") shadowing_q logged_in) = true /\
  lookup (js "toString") [(js "toString", QStr (js "x"))] = Some (QStr (js "x")) /\
  query healthy (with_param (js "q") shadowing_q logged_in) =
    Threw TypeError (start (with_param (js "q") shadowing_q logged_in)).
Proof.
  split; [reflexivity|]. split; [reflexivity|].
  apply (query_raises_on_shadowed_toString healthy
           (with_param (js "q") shadowing_q logged_in)
           [(js "toString", QStr (js "x"))] (QStr (js "x")));
    reflexivity.
Defined.

(** The same callback on an anonymous and on a logged-in session. *)
Lemma callback_ignores_session_witness :
  req_query (with_code logged_in) = req_query (with_code anonymous) /\
  response (final (auth_callback healthy (with_code logged_in))) =
    response (final (auth_callback healthy (with_code anonymous))) /\
  calls (final (auth_callback healthy (with_code logged_in))) =
    calls (final (auth_callback healthy (with_code anonymous))) /\
  console (final (auth_callback healthy (with_code logged_in))) =
    console (final (auth_callback healthy (with_code anonymous))).
Proof.
  split; [reflexivity|].
  apply (callback_ignores_session healthy (with_code anonymous) (with_code logged_in)).
  reflexivity.
Defined.

(** Callback on an anonymous session, then whoami on the session it left. *)
Lemma callback_then_whoami_witness :
  authenticate healthy (query_param (js "code") (req_query (with_code anonymous))) =
    (JNull, oauth_payload) /\
  session (final (auth_callback healthy (with_code anonymous))) =
    Some (req_session (plain logged_in)) /\
  calls (final (auth_whoami healthy (plain logged_in))) = [GetLoggedUser oauth_payload].
Proof.
  split; [reflexivity|]. split; [reflexivity|].
  apply (callback_then_whoami healthy (with_code anonymous) JNull oauth_payload
           (plain logged_in));
    reflexivity.
Defined.

(** Callback on an anonymous session, then logout on the session it left. *)
Lemma callback_then_logout_witness :
  authenticate healthy (query_param (js "code") (req_query (with_code anonymous))) =
    (JNull, oauth_payload) /\
  get_prop oauth_payload (js "access_token") = Some token /\
  session (final (auth_callback healthy (with_code anonymous))) =
    Some (req_session (plain logged_in)) /\
  calls (final (auth_logout healthy (plain logged_in))) = [Revoke token].
Proof.
  split; [reflexivity|]. split; [reflexivity|]. split; [reflexivity|].
  apply (callback_then_logout healthy (with_code anonymous) JNull oauth_payload token
           (plain logged_in));
    reflexivity.
Defined.
